(** * Task lifecycle and event emission of [schema/schema.py]

  A shallow embedding of the [Task] state machine, of the
  [TaskMessageData] payload it emits and of the event channel
  ([adispatch_custom_event]) the snapshots are handed to, followed by the
  properties of the lifecycle protocol.

  Python values are embedded as follows.
  - The values that travel in keyword arguments and in dumped models are
    the JSON-like trees [pyval]; a [dict] with string keys is a
    [gmap string pyval].
  - [Literal["new", "running", "complete"]] and
    [Literal["success", "error"]] are the enumerations [TaskState] and
    [TaskResult], printed to and parsed from their string literals.
  - A raised exception is a value of [exn]; a method of [Task] is a
    computation in a state-and-exception monad over the [Task] object and
    the log of dispatched events, so that an assignment made before a
    [raise] stays visible afterwards, as in Python.
  - [str(uuid4())] is an input of [Task.__init__].
  - In [Module Aliasing] the [data] argument is a reference into a store
    of dict objects, to follow object identity.

  The message conversions of the same file
  ([convert_message_content_to_string], [ChatMessage.from_langchain],
  [ChatMessage.to_langchain]) and the calculator tool of [agents/tools.py],
  which drives a [Task], follow, with their properties at the end. *)

From Stdlib Require Import ZArith Ascii.
From stdpp Require Import gmap strings list fin_maps.

Open Scope string_scope.
Open Scope list_scope.

(** ** Python values and exceptions *)

#[local] Unset Elimination Schemes.
Inductive pyval : Type :=
  | VNone
  | VBool (b : bool)
  | VInt (z : Z)
  | VStr (s : string)
  | VList (l : list pyval)
  | VDict (m : gmap string pyval).
#[local] Set Elimination Schemes.

(** [ValueError(msg)] and pydantic's [ValidationError], which reports the
    names of all the fields that failed, in declaration order. *)
Inductive exn : Type :=
  | ValueError (msg : string)
  | ValidationError (locs : list string).

Inductive TaskState : Type := New | Running | Complete.
Inductive TaskResult : Type := Success | Error.

#[global] Instance TaskState_eq_dec : EqDecision TaskState.
Proof. solve_decision. Defined.
#[global] Instance TaskResult_eq_dec : EqDecision TaskResult.
Proof. solve_decision. Defined.

Definition state_str (s : TaskState) : string :=
  match s with New => "new" | Running => "running" | Complete => "complete" end.

Definition result_str (r : TaskResult) : string :=
  match r with Success => "success" | Error => "error" end.

Definition state_of_str (s : string) : option TaskState :=
  if String.eqb s "new" then Some New
  else if String.eqb s "running" then Some Running
  else if String.eqb s "complete" then Some Complete
  else None.

Definition result_of_str (s : string) : option TaskResult :=
  if String.eqb s "success" then Some Success
  else if String.eqb s "error" then Some Error
  else None.

Definition opt_val {A} (f : A → pyval) (o : option A) : pyval :=
  match o with Some a => f a | None => VNone end.

(** ** Field validation (pydantic, lax mode, on [pyval])

  Each validator returns [None] when the value is rejected. *)

(** [str] *)
Definition validate_str (v : pyval) : option string :=
  match v with VStr s => Some s | _ => None end.

(** [T | None] *)
Definition validate_optional {A} (validate : pyval → option A) (v : pyval)
  : option (option A) :=
  match v with VNone => Some None | _ => Some <$> validate v end.

(** [Literal["new", "running", "complete"]] *)
Definition validate_state (v : pyval) : option TaskState :=
  match v with VStr s => state_of_str s | _ => None end.

(** [Literal["success", "error"]] *)
Definition validate_result (v : pyval) : option TaskResult :=
  match v with VStr s => result_of_str s | _ => None end.

(** [dict[str, Any]]: the entries are taken over into a new dict. *)
Definition validate_dict (v : pyval) : option (gmap string pyval) :=
  match v with VDict m => Some m | _ => None end.

(** One declared field: the default when the keyword is not supplied, the
    validated value otherwise, or the name of the field on rejection. *)
Definition field {A} (kw : gmap string pyval) (key : string) (default : A)
    (validate : pyval → option A) : string + A :=
  match kw !! key with
  | None => inr default
  | Some v => match validate v with Some a => inr a | None => inl key end
  end.

Definition field_error {A} (f : string + A) : list string :=
  match f with inl key => [key] | inr _ => [] end.

(** ** [class TaskMessageData(BaseModel)] *)

Module TaskMessageData.

Record t : Type := mk {
  name : option string;
  run_id : string;
  state : option TaskState;
  result : option TaskResult;
  data : gmap string pyval;
}.

(** The constructor, on its keyword arguments [kw]; keywords that name no
    field are ignored. *)
Definition init (kw : gmap string pyval) : exn + t :=
  let f_name := field kw "name" None (validate_optional validate_str) in
  let f_run_id := field kw "run_id" "" validate_str in
  let f_state := field kw "state" None (validate_optional validate_state) in
  let f_result := field kw "result" None (validate_optional validate_result) in
  let f_data := field kw "data" ∅ validate_dict in
  match f_name, f_run_id, f_state, f_result, f_data with
  | inr n, inr i, inr s, inr r, inr d => inr (mk n i s r d)
  | _, _, _, _, _ =>
      inl (ValidationError
             (field_error f_name ++ field_error f_run_id ++ field_error f_state
                ++ field_error f_result ++ field_error f_data))
  end.

(** [self.model_dump()] *)
Definition model_dump (self : t) : gmap string pyval :=
  <["name" := opt_val VStr (name self)]>
  (<["run_id" := VStr (run_id self)]>
  (<["state" := opt_val (VStr ∘ state_str) (state self)]>
  (<["result" := opt_val (VStr ∘ result_str) (result self)]>
  (<["data" := VDict (data self)]> ∅)))).

(** [TaskMessageData.model_validate(obj)] on a mapping *)
Definition model_validate (obj : gmap string pyval) : exn + t := init obj.

End TaskMessageData.

(** ** The envelope and the event channel *)

(** [RunnableConfig] is a [TypedDict]. *)
Abbreviation RunnableConfig := (gmap string pyval) (only parsing).

(** [langchain_core.messages.ChatMessage], with the fields that are set
    here: [content], a list of dumped models, and [role]. *)
Record LangchainChatMessage : Type := mkChatMessage {
  content : list (gmap string pyval);
  role : string;
}.

(** What [adispatch_custom_event(name=, data=, config=)] hands over. *)
Record CustomEvent : Type := mkEvent {
  ev_name : string;
  ev_data : LangchainChatMessage;
  ev_config : RunnableConfig;
}.

(** ** Effects

  A computation over a world [W] that may raise; the world at the point of
  a [raise] is kept. *)

Definition Eff (W A : Type) : Type := W → (exn + A) * W.

#[global] Instance Eff_ret {W} : MRet (Eff W) := λ A a w, (inr a, w).
#[global] Instance Eff_bind {W} : MBind (Eff W) := λ A B k m w,
  match m w with
  | (inl e, w') => (inl e, w')
  | (inr a, w') => k a w'
  end.

Definition raise {W A} (e : exn) : Eff W A := λ w, (inl e, w).
Definition lift {W A} (r : exn + A) : Eff W A := λ w, (r, w).

(** ** [class Task] *)

Module Task.

Record t : Type := mk {
  name : string;
  id : string;
  state : TaskState;
  result : option TaskResult;
}.

(** [Task(task_name)], with [uuid] the value of [str(uuid4())]. *)
Definition init (task_name uuid : string) : t :=
  {| name := task_name; id := uuid; state := New; result := None |}.

(** The object [self] and the events dispatched so far, oldest first. *)
Record World : Type := mkWorld {
  self : t;
  sink : list CustomEvent;
}.

Abbreviation M := (Eff World).

Definition get_self : M t := λ w, (inr (self w), w).
Definition set_state (s : TaskState) : M unit := λ w,
  (inr (), {| self := {| name := name (self w); id := id (self w);
                         state := s; result := result (self w) |};
              sink := sink w |}).
Definition set_result (r : option TaskResult) : M unit := λ w,
  (inr (), {| self := {| name := name (self w); id := id (self w);
                         state := state (self w); result := r |};
              sink := sink w |}).

(** The dispatch primitive of the event channel, which is not part of this
    code: it accepts the event, which is delivered to the observers of
    [config] after the ones dispatched before. *)
Definition adispatch_custom_event (name : string) (data : LangchainChatMessage)
    (config : RunnableConfig) : M unit := λ w,
  (inr (), {| self := self w; sink := sink w ++ [mkEvent name data config] |}).

(** [async def start(self, config, data={})]; a caller that leaves [data]
    out passes the empty mapping. *)
Definition start (config : RunnableConfig) (data : gmap string pyval)
  : M LangchainChatMessage :=
  set_state Running;;
  self ← get_self;
  tmd ← lift (TaskMessageData.init
                {[ "name" := VStr (name self); "run_id" := VStr (id self);
                   "state" := VStr (state_str (state self));
                   "data" := VDict data ]});
  let task_message :=
    {| content := [TaskMessageData.model_dump tmd]; role := "custom" |} in
  adispatch_custom_event (name self) task_message config;;
  mret task_message.

(** [async def write_data(self, config, data)] *)
Definition write_data (config : RunnableConfig) (data : gmap string pyval)
  : M LangchainChatMessage :=
  self ← get_self;
  if bool_decide (state self ≠ Running)
  then raise (ValueError "Only running tasks can output data.")
  else
    tmd ← lift (TaskMessageData.init
                  {[ "name" := VStr (name self); "run_id" := VStr (id self);
                     "state" := VStr (state_str (state self));
                     "data" := VDict data ]});
    let task_message :=
      {| content := [TaskMessageData.model_dump tmd]; role := "custom" |} in
    adispatch_custom_event (name self) task_message config;;
    mret task_message.

(** [async def finish(self, result, config, data={})] *)
Definition finish (result : TaskResult) (config : RunnableConfig)
    (data : gmap string pyval) : M LangchainChatMessage :=
  set_state Complete;;
  set_result (Some result);;
  self ← get_self;
  tmd ← lift (TaskMessageData.init
                {[ "name" := VStr (name self); "run_id" := VStr (id self);
                   "state" := VStr (state_str (state self));
                   "result" := opt_val (VStr ∘ result_str) (Task.result self);
                   "data" := VDict data ]});
  let task_message :=
    {| content := [TaskMessageData.model_dump tmd]; role := "custom" |} in
  adispatch_custom_event (name self) task_message config;;
  mret task_message.

(** A call made on the task by its owner. *)
Inductive call : Type :=
  | Start (config data : gmap string pyval)
  | WriteData (config data : gmap string pyval)
  | Finish (result : TaskResult) (config data : gmap string pyval).

Definition perform (c : call) : M LangchainChatMessage :=
  match c with
  | Start config data => start config data
  | WriteData config data => write_data config data
  | Finish result config data => finish result config data
  end.

(** The world after a sequence of calls; a caller that catches the
    exception of a call goes on with the world the call left. *)
Fixpoint run (cs : list call) (w : World) : World :=
  match cs with
  | [] => w
  | c :: cs => run cs (snd (perform c w))
  end.

Definition fresh (task_name uuid : string) : World :=
  {| self := init task_name uuid; sink := [] |}.

End Task.

(** ** Object identity of the [data] argument

  A [dict] handed to a method is an object the caller keeps and may change
  later. Here the dict objects reachable from [data] live in a store and
  are named by references (positive numbers); the other field values are
  immutable strings.
  A [dict[str, Any]] field is validated into a new dict object, and
  [model_dump] builds new containers for what it returns. *)

Module Aliasing.

(** A value as it is passed around: immutable, or a reference to a dict. *)
Inductive rval : Type :=
  | Imm (v : pyval)
  | Ref (l : positive).

(** A new dict object with the entries [o]. *)
Definition alloc (o : gmap string pyval) (h : gmap positive (gmap string pyval))
  : positive * gmap positive (gmap string pyval) :=
  let l := fresh (dom h) in (l, <[l := o]> h).

Definition deref (h : gmap positive (gmap string pyval)) (rv : rval) : pyval :=
  match rv with
  | Imm v => v
  | Ref l => VDict (h !!! l)
  end.

(** A mapping as its reader sees it in the store [h]. *)
Definition read (h : gmap positive (gmap string pyval)) (m : gmap string rval)
  : gmap string pyval :=
  deref h <$> m.

(** An instance of [TaskMessageData]; [data] is the instance's own dict. *)
Record t : Type := mk {
  name : option string;
  run_id : string;
  state : option TaskState;
  result : option TaskResult;
  data : positive;
}.

(** The envelope and the dispatched event, holding references. *)
Record Message : Type := mkMessage {
  msg_content : list (gmap string rval);
  msg_role : string;
}.

Record Event : Type := mkRefEvent {
  evt_name : string;
  evt_data : Message;
  evt_config : RunnableConfig;
}.

Record World : Type := mkWorld {
  self : Task.t;
  sink : list Event;
  heap : gmap positive (gmap string pyval);
}.

Abbreviation M := (Eff World).

Definition get_self : M Task.t := λ w, (inr (self w), w).

(** The constructor: the fields are validated as in
    [TaskMessageData.init], and the validated [data] is a new object. *)
Definition init (kw : gmap string rval) : M t := λ w,
  match TaskMessageData.init (read (heap w) kw) with
  | inl e => (inl e, w)
  | inr m =>
      let '(l, h) := alloc (TaskMessageData.data m) (heap w) in
      (inr {| name := TaskMessageData.name m;
              run_id := TaskMessageData.run_id m;
              state := TaskMessageData.state m;
              result := TaskMessageData.result m;
              data := l |},
       {| self := self w; sink := sink w; heap := h |})
  end.

(** [self.model_dump()]: the dict under ["data"] is a new object. *)
Definition model_dump (m : t) : M (gmap string rval) := λ w,
  let '(l, h) := alloc (heap w !!! data m) (heap w) in
  (inr (<["name" := Imm (opt_val VStr (name m))]>
        (<["run_id" := Imm (VStr (run_id m))]>
        (<["state" := Imm (opt_val (VStr ∘ state_str) (state m))]>
        (<["result" := Imm (opt_val (VStr ∘ result_str) (result m))]>
        (<["data" := Ref l]> ∅))))),
   {| self := self w; sink := sink w; heap := h |}).

Definition adispatch_custom_event (name : string) (data : Message)
    (config : RunnableConfig) : M unit := λ w,
  (inr (), {| self := self w; sink := sink w ++ [mkRefEvent name data config];
              heap := heap w |}).

(** [async def write_data(self, config, data)], [data] by reference. *)
Definition write_data (config : RunnableConfig) (data : positive)
  : M Message :=
  self ← get_self;
  if bool_decide (Task.state self ≠ Running)
  then raise (ValueError "Only running tasks can output data.")
  else
    tmd ← init {[ "name" := Imm (VStr (Task.name self));
                  "run_id" := Imm (VStr (Task.id self));
                  "state" := Imm (VStr (state_str (Task.state self)));
                  "data" := Ref data ]};
    dumped ← model_dump tmd;
    let task_message := {| msg_content := [dumped]; msg_role := "custom" |} in
    adispatch_custom_event (Task.name self) task_message config;;
    mret task_message.

(** The caller changes the dict [l] it owns: its entries become [o]. *)
Definition mutate (l : positive) (o : gmap string pyval) (w : World) : World :=
  {| self := self w; sink := sink w; heap := <[l := o]> (heap w) |}.

(** An event as an observer reads it in the store [h]. *)
Definition read_event (h : gmap positive (gmap string pyval)) (e : Event)
  : CustomEvent :=
  mkEvent (evt_name e)
    {| content := read h <$> msg_content (evt_data e);
       role := msg_role (evt_data e) |}
    (evt_config e).

End Aliasing.

(** ** What an observer reads *)

(** An envelope as built by the methods of [Task]. *)
Definition envelope (m : TaskMessageData.t) : LangchainChatMessage :=
  {| content := [TaskMessageData.model_dump m]; role := "custom" |}.

(** The record an observer obtains from a delivered event: the first (and
    only) element of [content], validated as a [TaskMessageData]. *)
Definition observe (e : CustomEvent) : option TaskMessageData.t :=
  match content (ev_data e) with
  | [custom_data] =>
      match TaskMessageData.model_validate custom_data with
      | inr m => Some m
      | inl _ => None
      end
  | _ => None
  end.

(** A running task whose caller holds one dict, at reference 1. *)
Definition example_store_world : Aliasing.World :=
  {| Aliasing.self := Task.mk "t" "u" Running None;
     Aliasing.sink := [];
     Aliasing.heap := {[ 1%positive := {[ "k" := VInt 1 ]} ]} |}.

(** The specification's name for the error of a call made in a state that
    forbids it; [write_data] raises it as this [ValueError]. *)
Definition InvalidTransition : exn :=
  ValueError "Only running tasks can output data.".

(** A caller that awaits each call in turn and does not catch: the first
    exception ends the sequence. *)
Fixpoint perform_all (cs : list Task.call) : Task.M (list LangchainChatMessage) :=
  match cs with
  | [] => mret []
  | c :: cs =>
      msg ← Task.perform c;
      msgs ← perform_all cs;
      mret (msg :: msgs)
  end.

(** The enumerated domains, and what it is for a keyword to be supplied
    with a value of some kind. *)
Definition state_literals : list string := ["new"; "running"; "complete"].
Definition result_literals : list string := ["success"; "error"].

Definition outside (allowed : list string) (v : pyval) : Prop :=
  ∀ s, s ∈ allowed → v ≠ VStr s.

Definition supplied (kw : gmap string pyval) (key : string) (P : pyval → Prop) : Prop :=
  ∃ v, kw !! key = Some v ∧ P v.

Definition fails_validation {A} (r : exn + A) : Prop :=
  ∃ locs, r = inl (ValidationError locs).

(** [result] is set exactly when the state is [complete]. *)
Definition result_iff_complete (w : Task.World) : Prop :=
  is_Some (Task.result (Task.self w)) ↔ Task.state (Task.self w) = Complete.

(** Sequences of calls in which [start] is not called again once [finish]
    has been called. *)
Definition is_start (c : Task.call) : bool :=
  match c with Task.Start _ _ => true | _ => false end.

Fixpoint no_start_after_finish (cs : list Task.call) : bool :=
  match cs with
  | [] => true
  | Task.Finish _ _ _ :: cs => forallb (negb ∘ is_start) cs
  | _ :: cs => no_start_after_finish cs
  end.

(** The event carries a snapshot of the task named [n] with id [i]. *)
Definition carries (n i : string) (ev : CustomEvent) : Prop :=
  ∃ m, content (ev_data ev) = [TaskMessageData.model_dump m]
       ∧ observe ev = Some m
       ∧ TaskMessageData.run_id m = i
       ∧ TaskMessageData.name m = Some n.

(** * The message conversions of [schema/schema.py] *)

(** The exceptions of this part: the ones above, and the built-in ones that
    indexing, joining and the unsupported cases raise. *)
Inductive pyerror : Type :=
  | Raised (e : exn)
  | KeyError (key : string)
  | TypeError
  | IndexError
  | NotImplementedError (msg : string).

Definition and_then {A B} (r : pyerror + A) (k : A → pyerror + B) : pyerror + B :=
  match r with
  | inl e => inl e
  | inr a => k a
  end.

(** [content: str | list[str | dict]] *)
Inductive content_item : Type :=
  | ItemStr (s : string)
  | ItemDict (d : gmap string pyval).

Inductive message_content : Type :=
  | ContentStr (s : string)
  | ContentList (items : list content_item).

(** [v == "text"] *)
Definition is_text (v : pyval) : bool :=
  match v with VStr s => String.eqb s "text" | _ => false end.

(** The loop of [convert_message_content_to_string], with [text] the list
    built so far. *)
Fixpoint collect_text (items : list content_item) (text : list pyval)
  : pyerror + list pyval :=
  match items with
  | [] => inr text
  | ItemStr s :: items => collect_text items (text ++ [VStr s])
  | ItemDict d :: items =>
      match d !! "type" with
      | None => inl (KeyError "type")
      | Some ty =>
          if is_text ty then
            match d !! "text" with
            | None => inl (KeyError "text")
            | Some v => collect_text items (text ++ [v])
            end
          else collect_text items text
      end
  end.

(** [sep.join(text)] for the empty separator: every element must be a
    [str]. *)
Fixpoint join (text : list pyval) : pyerror + string :=
  match text with
  | [] => inr EmptyString
  | VStr s :: text => and_then (join text) (λ rest, inr (String.append s rest))
  | _ :: _ => inl TypeError
  end.

(** [def convert_message_content_to_string(content)] *)
Definition convert_message_content_to_string (content : message_content)
  : pyerror + string :=
  match content with
  | ContentStr s => inr s
  | ContentList items => and_then (collect_text items []) join
  end.

(** The LangChain messages, by the class the [match] of [from_langchain]
    finds them in, with the attributes that are read. A message of another
    class carries the name of its class. *)
Inductive BaseMessage : Type :=
  | HumanMessage (content : message_content)
  | AIMessage (content : message_content) (tool_calls : list (gmap string pyval))
  | ToolMessage (content : message_content) (tool_call_id : string)
  | LcChatMessage (content : message_content) (role : string)
  | OtherMessage (class_name : string) (content : message_content).

(** [raw_original.content = content] *)
Definition set_content (message : BaseMessage) (content : message_content)
  : BaseMessage :=
  match message with
  | HumanMessage _ => HumanMessage content
  | AIMessage _ tool_calls => AIMessage content tool_calls
  | ToolMessage _ tool_call_id => ToolMessage content tool_call_id
  | LcChatMessage _ role => LcChatMessage content role
  | OtherMessage class_name _ => OtherMessage class_name content
  end.

(** An envelope built by a [Task], as a LangChain message. *)
Definition as_message (m : LangchainChatMessage) : BaseMessage :=
  LcChatMessage (ContentList (ItemDict <$> content m)) (role m).

(** [content[0]]; on a [str] it is the string of its first character. *)
Definition content_first (content : message_content) : pyerror + pyval :=
  match content with
  | ContentStr EmptyString => inl IndexError
  | ContentStr (String a _) => inr (VStr (String a EmptyString))
  | ContentList [] => inl IndexError
  | ContentList (ItemStr s :: _) => inr (VStr s)
  | ContentList (ItemDict d :: _) => inr (VDict d)
  end.

Inductive MessageType : Type := Human | AI | Tool | Custom.

Definition type_str (ty : MessageType) : string :=
  match ty with Human => "human" | AI => "ai" | Tool => "tool" | Custom => "custom" end.

(** ** [class ChatMessage(BaseModel)] *)

Module ChatMessage.

Record t : Type := mk {
  type : MessageType;
  content : string;
  tool_calls : list (gmap string pyval);
  tool_call_id : option string;
  run_id : option string;
  original : gmap string pyval;
  custom_data : gmap string pyval;
}.

Section Conversions.

(** [message_to_dict] and [messages_from_dict] of [langchain_core]. *)
Context (message_to_dict : BaseMessage → gmap string pyval).
Context (messages_from_dict : list (gmap string pyval) → pyerror + list BaseMessage).

(** [def from_langchain(cls, message)]. The keywords passed to [cls] have
    the types of their fields, but for [custom_data], which is validated
    as a [dict[str, Any]]. *)
Definition from_langchain (message : BaseMessage) : pyerror + t :=
  let original := message_to_dict message in
  match message with
  | HumanMessage content =>
      and_then (convert_message_content_to_string content) (λ content,
      let human_message :=
        {| type := Human; content := content; tool_calls := [];
           tool_call_id := None; run_id := None; original := original;
           custom_data := ∅ |} in
      inr human_message)
  | AIMessage content message_tool_calls =>
      and_then (convert_message_content_to_string content) (λ content,
      let ai_message :=
        {| type := AI; content := content; tool_calls := [];
           tool_call_id := None; run_id := None; original := original;
           custom_data := ∅ |} in
      if bool_decide (message_tool_calls ≠ [])
      then inr {| type := type ai_message; content := ChatMessage.content ai_message;
                  tool_calls := message_tool_calls;
                  tool_call_id := tool_call_id ai_message;
                  run_id := run_id ai_message;
                  original := ChatMessage.original ai_message;
                  custom_data := custom_data ai_message |}
      else inr ai_message)
  | ToolMessage content message_tool_call_id =>
      and_then (convert_message_content_to_string content) (λ content,
      let tool_message :=
        {| type := Tool; content := content; tool_calls := [];
           tool_call_id := Some message_tool_call_id; run_id := None;
           original := original; custom_data := ∅ |} in
      inr tool_message)
  | LcChatMessage content role =>
      if String.eqb role "custom" then
        and_then (content_first content) (λ first,
        match validate_dict first with
        | None => inl (Raised (ValidationError ["custom_data"]))
        | Some custom_data =>
            let custom_message :=
              {| type := Custom; content := EmptyString; tool_calls := [];
                 tool_call_id := None; run_id := None; original := ∅;
                 custom_data := custom_data |} in
            inr custom_message
        end)
      else
        inl (Raised (ValueError (String.append "Unsupported chat message role: " role)))
  | OtherMessage class_name _ =>
      inl (Raised (ValueError (String.append "Unsupported message type: " class_name)))
  end.

(** [def to_langchain(self)] *)
Definition to_langchain (self : t) : pyerror + BaseMessage :=
  if bool_decide (original self ≠ ∅) then
    and_then (messages_from_dict [original self]) (λ messages,
    match messages with
    | [] => inl IndexError
    | raw_original :: _ => inr (set_content raw_original (ContentStr (content self)))
    end)
  else
    match type self with
    | Human => inr (HumanMessage (ContentStr (content self)))
    | ty =>
        inl (NotImplementedError
               (String.append "Unsupported message type: " (type_str ty)))
    end.

End Conversions.

End ChatMessage.

(** * The calculator tool of [agents/tools.py] *)

(** [re.sub(r"^\[|\]$", "", s)]. The first alternative matches an opening
    bracket at the start of [s]; the second a closing bracket that is the
    last character, or the last before a final newline. *)
Definition closing_bracket_at_end (c : Ascii.ascii) (rest : string) : bool :=
  Ascii.eqb c "]"%char
  && match rest with
     | EmptyString => true
     | String n EmptyString => Ascii.eqb n "010"%char
     | _ => false
     end.

Fixpoint sub_closing_bracket (s : string) : string :=
  match s with
  | EmptyString => EmptyString
  | String c rest =>
      if closing_bracket_at_end c rest then rest
      else String c (sub_closing_bracket rest)
  end.

Definition re_sub_brackets (s : string) : string :=
  match s with
  | EmptyString => EmptyString
  | String c rest =>
      if Ascii.eqb c "["%char then sub_closing_bracket rest
      else sub_closing_bracket s
  end.

Definition dquote : string := String "034"%char EmptyString.

(** The message of the [ValueError] of [calculator_func], for the
    expression and [str(e)]. *)
Definition calculator_error_message (expression str_e : string) : string :=
  String.append "calculator("
    (String.append dquote
    (String.append expression
    (String.append dquote
    (String.append ") raised error: "
    (String.append str_e ". Please try again with a valid numerical expression"))))).

Section Calculator.

(** [evaluate expression] stands for
    [str(numexpr.evaluate(expression.strip(), global_dict={}, local_dict=local_dict))]:
    the string of the value, or [str(e)] of the exception [e] it raises.
    [str_exn] is [str] on the exceptions above. The tool imports [Task]
    from [agents.bg_task_agent.task]; it is taken to be the class [Task]
    above. [asyncio.sleep] returns. *)
Context (evaluate : string → string + string).
Context (str_exn : exn → string).

(** A computation under [try], its exception kept as [str(e)]. *)
Definition under_try {A} (m : Task.M A) : Task.World → (string + A) * Task.World :=
  λ w,
  match m w with
  | (inl e, w') => (inl (str_exn e), w')
  | (inr a, w') => (inr a, w')
  end.

Definition try_except {A} (body : Task.World → (string + A) * Task.World)
    (handler : string → Task.M A) : Task.M A :=
  λ w,
  match body w with
  | (inl str_e, w') => handler str_e w'
  | (inr a, w') => (inr a, w')
  end.

(** The body of [calculator_func] on [task1]. *)
Definition calculator_on_task (expression : string) (config : RunnableConfig)
  : Task.M string :=
  Task.start config ∅;;
  try_except
    (λ w,
       match evaluate expression with
       | inl str_e => (inl str_e, w)
       | inr output =>
           under_try
             (Task.finish Success config {[ "output" := VStr output ]};;
              mret (re_sub_brackets output)) w
       end)
    (λ str_e,
       Task.finish Error config {[ "output" := VStr "error" ]};;
       raise (ValueError (calculator_error_message expression str_e))).

(** [async def calculator_func(expression, config)], on the events
    dispatched so far; [uuid] is the id the new task gets. *)
Definition calculator_func (uuid : string) (expression : string)
    (config : RunnableConfig) : Eff (list CustomEvent) string :=
  λ events,
  let task1 := Task.init "Simple task 1..." uuid in
  let '(r, w) := calculator_on_task expression config
                   {| Task.self := task1; Task.sink := events |} in
  (r, Task.sink w).

End Calculator.

(** The text an item contributes when it is well formed: a string itself,
    the ["text"] of a dict of type text, nothing for a dict of another
    type. *)
Definition item_text (item : content_item) : option string :=
  match item with
  | ItemStr s => Some s
  | ItemDict d =>
      match d !! "type" with
      | None => None
      | Some ty =>
          if is_text ty then
            match d !! "text" with
            | Some (VStr s) => Some s
            | _ => None
            end
          else Some EmptyString
      end
  end.

Definition concat_strings (l : list string) : string :=
  foldr String.append EmptyString l.

(** * What is stated of the events of a task *)

(** An event of the task named [n] with id [i]: dispatched under the name
    of the task, its envelope holds one snapshot, which is a running
    snapshot without result or a complete one with a result. *)
Definition task_event (n i : string) (ev : CustomEvent) : Prop :=
  ∃ m, ev_name ev = n
       ∧ ev_data ev = envelope m
       ∧ TaskMessageData.name m = Some n
       ∧ TaskMessageData.run_id m = i
       ∧ (TaskMessageData.state m = Some Running ∧ TaskMessageData.result m = None
          ∨ TaskMessageData.state m = Some Complete
            ∧ is_Some (TaskMessageData.result m)).

(** The state an observer reads in an event, if it reads a snapshot. *)
Definition observed_state (ev : CustomEvent) : option (option TaskState) :=
  TaskMessageData.state <$> observe ev.

(** * Properties *)

(** ** The scenarios of the specification, run *)

Example init_bogus :
  TaskMessageData.init {[ "state" := VStr "bogus" ]} = inl (ValidationError ["state"]).
Proof. vm_compute. reflexivity. Qed.

Example start_once :
  Task.start ∅ ∅ (Task.fresh "Simple task 1..." "u1") =
  (inr {| content := [TaskMessageData.model_dump
                        (TaskMessageData.mk (Some "Simple task 1...") "u1" (Some Running) None ∅)];
          role := "custom" |},
   {| Task.self := Task.mk "Simple task 1..." "u1" Running None;
      Task.sink := [mkEvent "Simple task 1..."
                      {| content := [TaskMessageData.model_dump
                        (TaskMessageData.mk (Some "Simple task 1...") "u1" (Some Running) None ∅)];
                         role := "custom" |} ∅] |}).
Proof. vm_compute. reflexivity. Qed.

(** The calculator scenario: [start()], then
    [finish("success", data={"output": "42"})]; two events and no other. *)
Example calculator_scenario :
  observe <$> Task.sink (snd (perform_all
      [Task.Start ∅ ∅; Task.Finish Success ∅ {[ "output" := VStr "42" ]}]
      (Task.fresh "Simple task 1..." "u1")))
  = [Some (TaskMessageData.mk (Some "Simple task 1...") "u1" (Some Running) None ∅);
     Some (TaskMessageData.mk (Some "Simple task 1...") "u1" (Some Complete)
             (Some Success) {[ "output" := VStr "42" ]})].
Proof. vm_compute. reflexivity. Qed.

Example init_defaults :
  TaskMessageData.init ∅ = inr (TaskMessageData.mk None "" None None ∅).
Proof. vm_compute. reflexivity. Qed.

(** A reference does show what the caller does to its dict; the event of
    [write_data] holds no such reference. *)
Example mutation_is_visible_through_reference :
  Aliasing.deref
    (Aliasing.heap (Aliasing.mutate 1%positive {[ "k" := VInt 2 ]} example_store_world))
    (Aliasing.Ref 1%positive)
  = VDict {[ "k" := VInt 2 ]}.
Proof. vm_compute. reflexivity. Qed.

Example write_data_then_mutate :
  let w' := snd (Aliasing.write_data ∅ 1%positive example_store_world) in
  Aliasing.read_event
    (Aliasing.heap (Aliasing.mutate 1%positive {[ "k" := VInt 2 ]} w')) <$> Aliasing.sink w'
  = [mkEvent "t"
       (envelope (TaskMessageData.mk (Some "t") "u" (Some Running) None {[ "k" := VInt 1 ]}))
       ∅].
Proof. vm_compute. reflexivity. Qed.

(** ** Literals *)

Lemma state_of_str_str s : state_of_str (state_str s) = Some s.
Proof. by destruct s. Qed.

Lemma result_of_str_str r : result_of_str (result_str r) = Some r.
Proof. by destruct r. Qed.

Lemma validate_optional_state_str o :
  validate_optional validate_state (opt_val (VStr ∘ state_str) o) = Some o.
Proof. destruct o as [s|]; [|done]. by destruct s. Qed.

Lemma validate_optional_result_str o :
  validate_optional validate_result (opt_val (VStr ∘ result_str) o) = Some o.
Proof. destruct o as [r|]; [|done]. by destruct r. Qed.

Lemma validate_optional_str o :
  validate_optional validate_str (opt_val VStr o) = Some o.
Proof. by destruct o. Qed.

(** ** Construction of the payload *)

Lemma field_supplied {A} (kw : gmap string pyval) key (default : A) validate v a :
  kw !! key = Some v → validate v = Some a →
  field kw key default validate = inr a.
Proof. intros Hk Hv. unfold field. by rewrite Hk, Hv. Qed.

Lemma field_rejected {A} (kw : gmap string pyval) key (default : A) validate v :
  kw !! key = Some v → validate v = None →
  field kw key default validate = inl key.
Proof. intros Hk Hv. unfold field. by rewrite Hk, Hv. Qed.

Lemma field_default {A} (kw : gmap string pyval) key (default : A) validate :
  kw !! key = None → field kw key default validate = inr default.
Proof. intros Hk. unfold field. by rewrite Hk. Qed.

(** The keywords [start] and [write_data] pass are accepted. *)
Lemma init_progress_kwargs n i st d :
  TaskMessageData.init
    {[ "name" := VStr n; "run_id" := VStr i; "state" := VStr (state_str st);
       "data" := VDict d ]}
  = inr (TaskMessageData.mk (Some n) i (Some st) None d).
Proof.
  unfold TaskMessageData.init, field. simplify_map_eq.
  by rewrite state_of_str_str.
Qed.

(** The keywords [finish] passes are accepted. *)
Lemma init_terminal_kwargs n i st r d :
  TaskMessageData.init
    {[ "name" := VStr n; "run_id" := VStr i; "state" := VStr (state_str st);
       "result" := opt_val (VStr ∘ result_str) r; "data" := VDict d ]}
  = inr (TaskMessageData.mk (Some n) i (Some st) r d).
Proof.
  unfold TaskMessageData.init, field. simplify_map_eq.
  rewrite state_of_str_str, validate_optional_result_str. done.
Qed.

(** Validating a dumped model gives the model back. *)
Lemma init_model_dump m :
  TaskMessageData.init (TaskMessageData.model_dump m) = inr m.
Proof.
  destruct m as [n i s r d].
  unfold TaskMessageData.init, TaskMessageData.model_dump, field.
  simplify_map_eq.
  rewrite validate_optional_str, validate_optional_state_str,
    validate_optional_result_str. done.
Qed.

Lemma observe_envelope name m config :
  observe (mkEvent name (envelope m) config) = Some m.
Proof.
  unfold observe, envelope, TaskMessageData.model_validate. simpl.
  by rewrite init_model_dump.
Qed.

(** ** The three methods, as equations *)

Section Methods.
Import Task.
Context (config : gmap string pyval) (data : gmap string pyval) (w : World).

Let n := name (self w).
Let i := id (self w).

Lemma start_eq :
  start config data w =
  let m := TaskMessageData.mk (Some n) i (Some Running) None data in
  (inr (envelope m),
   {| self := {| name := n; id := i; state := Running; result := result (self w) |};
      sink := sink w ++ [mkEvent n (envelope m) config] |}).
Proof.
  unfold start, mbind, Eff_bind, set_state, get_self, lift; simpl.
  by rewrite (init_progress_kwargs _ _ Running).
Qed.

Lemma write_data_running_eq :
  state (self w) = Running →
  write_data config data w =
  let m := TaskMessageData.mk (Some n) i (Some Running) None data in
  (inr (envelope m),
   {| self := self w; sink := sink w ++ [mkEvent n (envelope m) config] |}).
Proof.
  intros Hst.
  unfold write_data, mbind, Eff_bind, get_self, lift; simpl.
  rewrite Hst; simpl.
  by rewrite (init_progress_kwargs _ _ Running).
Qed.

Lemma write_data_not_running_eq :
  state (self w) ≠ Running →
  write_data config data w =
  (inl (ValueError "Only running tasks can output data."), w).
Proof.
  intros Hst.
  unfold write_data, mbind, Eff_bind, get_self, raise; simpl.
  by rewrite bool_decide_eq_true_2.
Qed.

Lemma finish_eq (r : TaskResult) :
  finish r config data w =
  let m := TaskMessageData.mk (Some n) i (Some Complete) (Some r) data in
  (inr (envelope m),
   {| self := {| name := n; id := i; state := Complete; result := Some r |};
      sink := sink w ++ [mkEvent n (envelope m) config] |}).
Proof.
  unfold finish, mbind, Eff_bind, set_state, set_result, get_self, lift; simpl.
  by rewrite (init_terminal_kwargs _ _ Complete (Some r)).
Qed.

End Methods.

(** The same equations on a world given by its parts. *)

Lemma start_mk config data n i st r snk :
  Task.start config data {| Task.self := Task.mk n i st r; Task.sink := snk |} =
  let m := TaskMessageData.mk (Some n) i (Some Running) None data in
  (inr (envelope m),
   {| Task.self := Task.mk n i Running r;
      Task.sink := snk ++ [mkEvent n (envelope m) config] |}).
Proof. by rewrite start_eq. Qed.

Lemma write_data_mk config data n i r snk :
  Task.write_data config data {| Task.self := Task.mk n i Running r; Task.sink := snk |} =
  let m := TaskMessageData.mk (Some n) i (Some Running) None data in
  (inr (envelope m),
   {| Task.self := Task.mk n i Running r;
      Task.sink := snk ++ [mkEvent n (envelope m) config] |}).
Proof. by rewrite write_data_running_eq. Qed.

Lemma finish_mk res config data n i st r snk :
  Task.finish res config data {| Task.self := Task.mk n i st r; Task.sink := snk |} =
  let m := TaskMessageData.mk (Some n) i (Some Complete) (Some res) data in
  (inr (envelope m),
   {| Task.self := Task.mk n i Complete (Some res);
      Task.sink := snk ++ [mkEvent n (envelope m) config] |}).
Proof. by rewrite finish_eq. Qed.

(** ** [write_data] *)

Section WriteData.
Import Task.
Context (config : gmap string pyval) (data : gmap string pyval) (w : World).

(** C2. [write_data] raises the invalid-transition error exactly when the
    task is not running, and returns a message exactly when it is. *)
Theorem write_data_raises_iff_not_running :
  (fst (write_data config data w) = inl InvalidTransition ↔ state (self w) ≠ Running)
  ∧ ((∃ msg, fst (write_data config data w) = inr msg) ↔ state (self w) = Running).
Proof.
  destruct (decide (state (self w) = Running)) as [Hrun|Hrun].
  - rewrite (write_data_running_eq _ _ _ Hrun); simpl. split; split.
    + discriminate.
    + intros Hne. by destruct Hne.
    + done.
    + eauto.
  - rewrite (write_data_not_running_eq _ _ _ Hrun); simpl. split; split.
    + done.
    + done.
    + intros [msg Hmsg]. discriminate.
    + intros Heq. by destruct Hrun.
Qed.

(** C10. On a task that is not running, [write_data] raises and leaves the
    world as it was: no event is dispatched and no field of the task is
    assigned. *)
Theorem write_data_not_running_atomic :
  state (self w) ≠ Running →
  write_data config data w = (inl InvalidTransition, w).
Proof. apply write_data_not_running_eq. Qed.

End WriteData.

Lemma write_data_not_running_atomic_witness :
  Task.write_data ∅ {[ "k" := VInt 1 ]} (Task.fresh "t" "u")
  = (inl InvalidTransition, Task.fresh "t" "u").
Proof.
  apply (write_data_not_running_atomic ∅ {[ "k" := VInt 1 ]} (Task.fresh "t" "u")).
  vm_compute. discriminate.
Defined.

(** ** [start] and [finish] *)

Section StartFinish.
Import Task.
Context (config : gmap string pyval) (data : gmap string pyval) (w : World).

(** C4. [start] sets the state to [running], dispatches one event and
    returns its envelope; the snapshot in it has state [running], the given
    data and no result. *)
Theorem start_emits_running_snapshot :
  ∃ ev m,
    fst (start config data w) = inr (ev_data ev)
    ∧ state (self (snd (start config data w))) = Running
    ∧ sink (snd (start config data w)) = sink w ++ [ev]
    ∧ content (ev_data ev) = [TaskMessageData.model_dump m]
    ∧ observe ev = Some m
    ∧ TaskMessageData.state m = Some Running
    ∧ TaskMessageData.data m = data
    ∧ TaskMessageData.result m = None.
Proof.
  rewrite start_eq; simpl.
  set (m := TaskMessageData.mk _ _ _ _ _).
  exists (mkEvent (name (self w)) (envelope m) config), m.
  split_and!; first [apply observe_envelope | reflexivity].
Qed.

(** C5. [finish] sets the state to [complete] and the result to the given
    one, and dispatches one event, whose snapshot has state [complete], that
    result and the given data. *)
Theorem finish_emits_terminal_snapshot (r : TaskResult) :
  ∃ ev m,
    fst (finish r config data w) = inr (ev_data ev)
    ∧ state (self (snd (finish r config data w))) = Complete
    ∧ result (self (snd (finish r config data w))) = Some r
    ∧ sink (snd (finish r config data w)) = sink w ++ [ev]
    ∧ content (ev_data ev) = [TaskMessageData.model_dump m]
    ∧ observe ev = Some m
    ∧ TaskMessageData.state m = Some Complete
    ∧ TaskMessageData.result m = Some r
    ∧ TaskMessageData.data m = data.
Proof.
  rewrite finish_eq; simpl.
  set (m := TaskMessageData.mk _ _ _ _ _).
  exists (mkEvent (name (self w)) (envelope m) config), m.
  split_and!; first [apply observe_envelope | reflexivity].
Qed.

End StartFinish.

(** ** The whole lifecycle *)

(** C3. A fresh task taken through [start], two [write_data] and
    [finish(success)]: every call returns, the channel holds four events, in
    order, with states running, running, running, complete, and the last
    snapshot carries the result [success] and the data of [finish]. *)
Theorem lifecycle_four_snapshots (task_name uuid : string)
    (c0 c1 c2 c3 d0 d1 d2 d3 : gmap string pyval) :
  let r := perform_all [Task.Start c0 d0; Task.WriteData c1 d1;
                        Task.WriteData c2 d2; Task.Finish Success c3 d3]
             (Task.fresh task_name uuid) in
  ∃ m1 m2 m3 m4,
    fst r = inr [envelope m1; envelope m2; envelope m3; envelope m4]
    ∧ ev_data <$> Task.sink (snd r) = [envelope m1; envelope m2; envelope m3; envelope m4]
    ∧ observe <$> Task.sink (snd r) = [Some m1; Some m2; Some m3; Some m4]
    ∧ TaskMessageData.state <$> [m1; m2; m3; m4]
      = [Some Running; Some Running; Some Running; Some Complete]
    ∧ TaskMessageData.result m4 = Some Success
    ∧ TaskMessageData.data m4 = d3.
Proof.
  intros r. subst r.
  set (m1 := TaskMessageData.mk (Some task_name) uuid (Some Running) None d0).
  set (m2 := TaskMessageData.mk (Some task_name) uuid (Some Running) None d1).
  set (m3 := TaskMessageData.mk (Some task_name) uuid (Some Running) None d2).
  set (m4 := TaskMessageData.mk (Some task_name) uuid (Some Complete) (Some Success) d3).
  exists m1, m2, m3, m4.
  assert (perform_all [Task.Start c0 d0; Task.WriteData c1 d1;
                       Task.WriteData c2 d2; Task.Finish Success c3 d3]
            (Task.fresh task_name uuid)
          = (inr [envelope m1; envelope m2; envelope m3; envelope m4],
             {| Task.self := Task.mk task_name uuid Complete (Some Success);
                Task.sink := [mkEvent task_name (envelope m1) c0;
                              mkEvent task_name (envelope m2) c1;
                              mkEvent task_name (envelope m3) c2;
                              mkEvent task_name (envelope m4) c3] |})) as ->.
  { unfold perform_all, Task.perform, mbind, Eff_bind, Task.fresh, Task.init.
    rewrite start_mk; cbn beta iota zeta.
    rewrite write_data_mk; cbn beta iota zeta.
    rewrite write_data_mk; cbn beta iota zeta.
    rewrite finish_mk; cbn beta iota zeta.
    reflexivity. }
  split_and!; [reflexivity | reflexivity | | reflexivity..].
  cbn [fst snd Task.sink fmap list_fmap].
  by rewrite !observe_envelope.
Qed.

(** ** Sequences of calls *)

(** What one call does to the task object and to the channel. *)
Lemma perform_step c w :
  ∃ evs,
    snd (Task.perform c w) =
      {| Task.self :=
           match c with
           | Task.Start _ _ =>
               Task.mk (Task.name (Task.self w)) (Task.id (Task.self w)) Running
                 (Task.result (Task.self w))
           | Task.WriteData _ _ => Task.self w
           | Task.Finish r _ _ =>
               Task.mk (Task.name (Task.self w)) (Task.id (Task.self w)) Complete
                 (Some r)
           end;
         Task.sink := Task.sink w ++ evs |}
    ∧ Forall (carries (Task.name (Task.self w)) (Task.id (Task.self w))) evs.
Proof.
  assert (Hc : ∀ m cfg, carries (Task.name (Task.self w)) (Task.id (Task.self w))
                 (mkEvent (Task.name (Task.self w))
                    (envelope (TaskMessageData.mk (Some (Task.name (Task.self w)))
                                 (Task.id (Task.self w)) (Some m.1) m.2.1 m.2.2)) cfg)).
  { intros m cfg. eexists. split_and!; [reflexivity | apply observe_envelope | done..]. }
  destruct c as [config data|config data|r config data]; simpl.
  - rewrite start_eq; simpl. eexists [_]; split; [reflexivity|].
    constructor; [|constructor]. apply (Hc (Running, (None, data))).
  - destruct (decide (Task.state (Task.self w) = Running)) as [Hrun|Hrun].
    + rewrite write_data_running_eq by done; simpl.
      eexists [_]; split; [reflexivity|].
      constructor; [|constructor]. apply (Hc (Running, (None, data))).
    + rewrite write_data_not_running_eq by done; simpl.
      exists []. rewrite app_nil_r. split; [by destruct w|constructor].
  - rewrite finish_eq; simpl. eexists [_]; split; [reflexivity|].
    constructor; [|constructor]. apply (Hc (Complete, (Some r, data))).
Qed.

Lemma perform_self c w :
  Task.self (snd (Task.perform c w)) =
  match c with
  | Task.Start _ _ =>
      Task.mk (Task.name (Task.self w)) (Task.id (Task.self w)) Running
        (Task.result (Task.self w))
  | Task.WriteData _ _ => Task.self w
  | Task.Finish r _ _ =>
      Task.mk (Task.name (Task.self w)) (Task.id (Task.self w)) Complete (Some r)
  end.
Proof. destruct (perform_step c w) as (evs & -> & _). done. Qed.

Lemma perform_name_id c w :
  Task.name (Task.self (snd (Task.perform c w))) = Task.name (Task.self w)
  ∧ Task.id (Task.self (snd (Task.perform c w))) = Task.id (Task.self w).
Proof. rewrite perform_self. by destruct c. Qed.

Lemma run_frame cs : ∀ w,
  Forall (carries (Task.name (Task.self w)) (Task.id (Task.self w))) (Task.sink w) →
  Task.name (Task.self (Task.run cs w)) = Task.name (Task.self w)
  ∧ Task.id (Task.self (Task.run cs w)) = Task.id (Task.self w)
  ∧ Forall (carries (Task.name (Task.self w)) (Task.id (Task.self w)))
      (Task.sink (Task.run cs w)).
Proof.
  induction cs as [|c cs IH]; intros w Hw; simpl; [done|].
  destruct (perform_name_id c w) as [Hn Hi].
  destruct (perform_step c w) as (evs & Hstep & Hevs).
  specialize (IH (snd (Task.perform c w))).
  rewrite Hn, Hi in IH. apply IH.
  rewrite Hstep; simpl. by apply Forall_app.
Qed.

(** C6. Whatever calls follow the creation of a task, its [name] and [id]
    stay the ones given at creation, and every event in the channel carries
    a snapshot with that id as [run_id] and that name. *)
Theorem id_name_never_change (task_name uuid : string) (cs : list Task.call) :
  Task.name (Task.self (Task.run cs (Task.fresh task_name uuid))) = task_name
  ∧ Task.id (Task.self (Task.run cs (Task.fresh task_name uuid))) = uuid
  ∧ Forall (carries task_name uuid) (Task.sink (Task.run cs (Task.fresh task_name uuid))).
Proof. apply (run_frame cs (Task.fresh task_name uuid)). constructor. Qed.

(** ** The result and the state *)

Lemma run_keeps_result_iff_complete cs : ∀ w,
  result_iff_complete w →
  forallb (negb ∘ is_start) cs = true →
  result_iff_complete (Task.run cs w).
Proof.
  induction cs as [|c cs IH]; intros w Hw Hcs; simpl in *; [done|].
  apply andb_prop in Hcs as [Hc Hcs].
  apply IH; [|done].
  unfold result_iff_complete in *. rewrite perform_self.
  destruct c as [config data|config data|r config data]; simpl in *; [done|done|].
  split; eauto.
Qed.

Lemma run_result_iff_complete_from_unset cs : ∀ w,
  Task.result (Task.self w) = None →
  Task.state (Task.self w) ≠ Complete →
  no_start_after_finish cs = true →
  result_iff_complete (Task.run cs w).
Proof.
  induction cs as [|c cs IH]; intros w Hres Hst Hcs; simpl in *.
  - unfold result_iff_complete. rewrite Hres. split; [by intros [? ?]|done].
  - pose proof (perform_self c w) as Hself.
    destruct c as [config data|config data|r config data].
    + apply IH; [by rewrite Hself|by rewrite Hself|done].
    + apply IH; [by rewrite Hself|by rewrite Hself|done].
    + apply run_keeps_result_iff_complete; [|done].
      unfold result_iff_complete. rewrite Hself; simpl. split; eauto.
Qed.

(** A completed task has a result, whatever the calls were. *)
Lemma run_complete_has_result cs : ∀ w,
  (Task.state (Task.self w) = Complete → is_Some (Task.result (Task.self w))) →
  Task.state (Task.self (Task.run cs w)) = Complete →
  is_Some (Task.result (Task.self (Task.run cs w))).
Proof.
  induction cs as [|c cs IH]; intros w Hw; simpl; [done|].
  apply IH. rewrite perform_self.
  destruct c as [config data|config data|r config data]; simpl; [done|done|eauto].
Qed.

(** C1, as stated, fails: [start] called after [finish] puts the task back
    to [running] and keeps the result. *)
Lemma result_iff_complete_counterexample :
  ¬ result_iff_complete
      (Task.run [Task.Finish Success ∅ ∅; Task.Start ∅ ∅] (Task.fresh "t" "u")).
Proof.
  unfold result_iff_complete. vm_compute. intros [H _].
  assert (Hs : is_Some (Some Success)) by eauto.
  specialize (H Hs). discriminate H.
Qed.

(** C1, amended. For a task taken from creation through calls among which
    [start] is not called after [finish], [result] is set exactly when the
    state is [complete]. *)
Theorem result_iff_complete_without_restart (task_name uuid : string)
    (cs : list Task.call) :
  no_start_after_finish cs = true →
  is_Some (Task.result (Task.self (Task.run cs (Task.fresh task_name uuid))))
  ↔ Task.state (Task.self (Task.run cs (Task.fresh task_name uuid))) = Complete.
Proof.
  intros Hcs.
  by apply (run_result_iff_complete_from_unset cs (Task.fresh task_name uuid)).
Qed.

Lemma result_iff_complete_without_restart_witness :
  is_Some (Task.result (Task.self
    (Task.run [Task.Start ∅ ∅; Task.WriteData ∅ {[ "k" := VInt 1 ]};
               Task.Finish Success ∅ ∅] (Task.fresh "t" "u"))))
  ↔ Task.state (Task.self
    (Task.run [Task.Start ∅ ∅; Task.WriteData ∅ {[ "k" := VInt 1 ]};
               Task.Finish Success ∅ ∅] (Task.fresh "t" "u"))) = Complete.
Proof.
  apply (result_iff_complete_without_restart "t" "u"
           [Task.Start ∅ ∅; Task.WriteData ∅ {[ "k" := VInt 1 ]};
            Task.Finish Success ∅ ∅]).
  reflexivity.
Defined.

(** ** Validation of the payload *)

Lemma state_of_str_none s : state_of_str s = None ↔ s ∉ state_literals.
Proof.
  unfold state_of_str, state_literals.
  destruct (String.eqb_spec s "new") as [->|H1];
    [split; [discriminate | intros H; destruct H; repeat constructor]|].
  destruct (String.eqb_spec s "running") as [->|H2];
    [split; [discriminate | intros H; destruct H; repeat constructor]|].
  destruct (String.eqb_spec s "complete") as [->|H3];
    [split; [discriminate | intros H; destruct H; repeat constructor]|].
  split; [|reflexivity]. intros _.
  rewrite !elem_of_cons, elem_of_nil. tauto.
Qed.

Lemma result_of_str_none s : result_of_str s = None ↔ s ∉ result_literals.
Proof.
  unfold result_of_str, result_literals.
  destruct (String.eqb_spec s "success") as [->|H1];
    [split; [discriminate | intros H; destruct H; repeat constructor]|].
  destruct (String.eqb_spec s "error") as [->|H2];
    [split; [discriminate | intros H; destruct H; repeat constructor]|].
  split; [|reflexivity]. intros _.
  rewrite !elem_of_cons, elem_of_nil. tauto.
Qed.

Lemma validate_str_none v : validate_str v = None ↔ ∀ s, v ≠ VStr s.
Proof.
  destruct v; simpl; split; try done.
  intros H. by destruct (H s).
Qed.

Lemma validate_dict_none v : validate_dict v = None ↔ ∀ m, v ≠ VDict m.
Proof.
  destruct v; simpl; split; try done.
  intros H. by destruct (H m).
Qed.

Lemma validate_optional_str_none v :
  validate_optional validate_str v = None ↔ v ≠ VNone ∧ ∀ s, v ≠ VStr s.
Proof.
  destruct v; simpl; split; try done.
  - by intros [H _].
  - intros [_ H]. by destruct (H s).
Qed.

Lemma outside_str allowed s : outside allowed (VStr s) ↔ s ∉ allowed.
Proof.
  unfold outside. split.
  - intros H Hin. by apply (H s).
  - intros H s' Hin [= ->]. done.
Qed.

Lemma validate_optional_state_none v :
  validate_optional validate_state v = None ↔ v ≠ VNone ∧ outside state_literals v.
Proof.
  destruct v as [|b|z|s|l|m]; simpl;
    try (split; [intros _; split; [discriminate | intros s' _; discriminate]
                | reflexivity]).
  - split; [discriminate | intros [H _]; by destruct H].
  - rewrite outside_str, <- state_of_str_none.
    destruct (state_of_str s); simpl; split;
      [discriminate | intros [_ H]; discriminate H | intros _; by split | reflexivity].
Qed.

Lemma validate_optional_result_none v :
  validate_optional validate_result v = None ↔ v ≠ VNone ∧ outside result_literals v.
Proof.
  destruct v as [|b|z|s|l|m]; simpl;
    try (split; [intros _; split; [discriminate | intros s' _; discriminate]
                | reflexivity]).
  - split; [discriminate | intros [H _]; by destruct H].
  - rewrite outside_str, <- result_of_str_none.
    destruct (result_of_str s); simpl; split;
      [discriminate | intros [_ H]; discriminate H | intros _; by split | reflexivity].
Qed.

Lemma field_rejects_iff {A} (kw : gmap string pyval) key (default : A) validate :
  (∃ k, field kw key default validate = inl k)
  ↔ supplied kw key (λ v, validate v = None).
Proof.
  unfold field, supplied. destruct (kw !! key) as [v|].
  - destruct (validate v) eqn:Hv; split.
    + by intros [k ?].
    + intros (v' & [= <-] & Hv'). congruence.
    + eauto.
    + eauto.
  - split; [by intros [k ?]|by intros (v & ? & _)].
Qed.

Lemma supplied_iff kw key (P Q : pyval → Prop) :
  (∀ v, P v ↔ Q v) → supplied kw key P ↔ supplied kw key Q.
Proof. unfold supplied. intros H. by setoid_rewrite H. Qed.

(** Construction fails exactly when some field is rejected. *)
Lemma init_fails_iff kw :
  fails_validation (TaskMessageData.init kw)
  ↔ (∃ k, field kw "name" None (validate_optional validate_str) = inl k)
    ∨ (∃ k, field kw "run_id" "" validate_str = inl k)
    ∨ (∃ k, field kw "state" None (validate_optional validate_state) = inl k)
    ∨ (∃ k, field kw "result" None (validate_optional validate_result) = inl k)
    ∨ (∃ k, field kw "data" ∅ validate_dict = inl k).
Proof.
  unfold fails_validation, TaskMessageData.init.
  destruct (field kw "name" _ _), (field kw "run_id" _ _),
    (field kw "state" _ _), (field kw "result" _ _), (field kw "data" _ _);
    simpl; (split; [intros [locs Hl] | intros Hk]);
    solve [ discriminate Hl
          | eauto 10
          | destruct Hk as [[? ?]|[[? ?]|[[? ?]|[[? ?]|[? ?]]]]]; discriminate ].
Qed.

(** C7, as stated, fails: a [run_id] that is not a string is rejected
    although neither [state] nor [result] is supplied. *)
Lemma init_fails_iff_enumerated_counterexample :
  ¬ (fails_validation (TaskMessageData.init {[ "run_id" := VNone ]})
     ↔ supplied {[ "run_id" := VNone ]} "state" (outside state_literals)
       ∨ supplied {[ "run_id" := VNone ]} "result" (outside result_literals)).
Proof.
  intros [H _].
  destruct H as [(v & Hv & _)|(v & Hv & _)].
  - exists ["run_id"]. vm_compute. reflexivity.
  - vm_compute in Hv. discriminate Hv.
  - vm_compute in Hv. discriminate Hv.
Qed.

(** C7, amended. Construction fails with a validation error exactly when a
    supplied keyword is outside the type of its field: [name] neither [None]
    nor a string, [run_id] not a string, [state] neither [None] nor one of
    new, running, complete, [result] neither [None] nor one of success,
    error, or [data] not a mapping. In particular [state="bogus"] fails, and
    a construction that succeeds without [run_id] has the empty string. *)
Theorem init_fails_iff_field_rejected (kw : gmap string pyval) :
  (fails_validation (TaskMessageData.init kw)
   ↔ supplied kw "name" (λ v, v ≠ VNone ∧ ∀ s, v ≠ VStr s)
     ∨ supplied kw "run_id" (λ v, ∀ s, v ≠ VStr s)
     ∨ supplied kw "state" (λ v, v ≠ VNone ∧ outside state_literals v)
     ∨ supplied kw "result" (λ v, v ≠ VNone ∧ outside result_literals v)
     ∨ supplied kw "data" (λ v, ∀ m, v ≠ VDict m))
  ∧ TaskMessageData.init {[ "state" := VStr "bogus" ]} = inl (ValidationError ["state"])
  ∧ (kw !! "run_id" = None →
     ∀ m, TaskMessageData.init kw = inr m → TaskMessageData.run_id m = "").
Proof.
  split_and!.
  - rewrite init_fails_iff, !field_rejects_iff.
    rewrite (supplied_iff kw "name" _ _ validate_optional_str_none).
    rewrite (supplied_iff kw "run_id" _ _ validate_str_none).
    rewrite (supplied_iff kw "state" _ _ validate_optional_state_none).
    rewrite (supplied_iff kw "result" _ _ validate_optional_result_none).
    rewrite (supplied_iff kw "data" _ _ validate_dict_none).
    reflexivity.
  - vm_compute. reflexivity.
  - intros Hrun m. unfold TaskMessageData.init.
    rewrite (field_default kw "run_id" "" validate_str Hrun).
    destruct (field kw "name" _ _), (field kw "state" _ _),
      (field kw "result" _ _), (field kw "data" _ _); simpl;
      intros [= <-] || discriminate. reflexivity.
Qed.

(** C8. Dumping a [TaskMessageData] to its mapping and validating the
    mapping gives the same record, field for field. *)
Theorem model_dump_validate_roundtrip (m : TaskMessageData.t) :
  TaskMessageData.model_validate (TaskMessageData.model_dump m) = inr m.
Proof. unfold TaskMessageData.model_validate. apply init_model_dump. Qed.

(** ** Object identity: the snapshot and the caller's dict *)

Section WriteDataAliasing.
Import Aliasing.
Context (config : gmap string pyval) (d : positive) (w : World).

Let n := Task.name (self w).
Let i := Task.id (self w).

(** The two dicts that are built, and the stores after each. *)
Let l1 := fresh (dom (heap w)).
Let h1 := <[l1 := heap w !!! d]> (heap w).
Let l2 := fresh (dom h1).
Let h2 := <[l2 := heap w !!! d]> h1.
Let dumped : gmap string rval :=
  <["name" := Imm (VStr n)]>
  (<["run_id" := Imm (VStr i)]>
  (<["state" := Imm (VStr "running")]>
  (<["result" := Imm VNone]>
  (<["data" := Ref l2]> ∅)))).

Lemma write_data_ref_running_eq :
  Task.state (self w) = Running →
  write_data config d w =
  (inr {| msg_content := [dumped]; msg_role := "custom" |},
   {| self := self w;
      sink := sink w ++ [mkRefEvent n {| msg_content := [dumped]; msg_role := "custom" |}
                           config];
      heap := h2 |}).
Proof.
  intros Hst.
  unfold write_data, mbind, Eff_bind, get_self, init, model_dump,
    adispatch_custom_event, alloc, read; simpl.
  rewrite Hst; simpl.
  rewrite !fmap_insert, map_fmap_singleton; simpl.
  rewrite <- insert_empty.
  pose proof (init_progress_kwargs n i Running (heap w !!! d)) as Hinit.
  simpl in Hinit. rewrite <- insert_empty in Hinit.
  fold n i. rewrite Hinit; simpl.
  rewrite lookup_total_insert_eq. reflexivity.
Qed.

Lemma dumped_read h :
  read h dumped =
  TaskMessageData.model_dump
    (TaskMessageData.mk (Some n) i (Some Running) None (h !!! l2)).
Proof.
  unfold read, dumped, TaskMessageData.model_dump.
  by rewrite !fmap_insert, fmap_empty.
Qed.

Lemma caller_dict_is_not_the_dumped_one : is_Some (heap w !! d) → d ≠ l2.
Proof.
  intros Hd%elem_of_dom Heq. apply (is_fresh (dom h1)). fold l2. rewrite <- Heq.
  unfold h1. rewrite dom_insert_L. by apply elem_of_union_r.
Qed.

(** C9. After [write_data] has returned on a running task, the dispatched
    event reads as the snapshot of the entries [data] had at the call, and
    whatever the caller then does to the dict it passed, the event reads the
    same. *)
Theorem write_data_snapshot_unaffected_by_mutation :
  Task.state (self w) = Running →
  is_Some (heap w !! d) →
  ∃ ev w',
    write_data config d w = (inr (evt_data ev), w')
    ∧ sink w' = sink w ++ [ev]
    ∧ read_event (heap w') ev
      = mkEvent n
          (envelope (TaskMessageData.mk (Some n) i (Some Running) None (heap w !!! d)))
          config
    ∧ ∀ o, read_event (heap (mutate d o w')) ev = read_event (heap w') ev.
Proof.
  intros Hst Hd.
  rewrite (write_data_ref_running_eq Hst).
  eexists (mkRefEvent n _ config), _.
  split_and!; [reflexivity | reflexivity | |].
  - unfold read_event, envelope; simpl.
    rewrite dumped_read. unfold h2. by rewrite lookup_total_insert_eq.
  - intros o. unfold read_event, mutate; simpl.
    rewrite !dumped_read.
    rewrite lookup_total_insert_ne by by apply caller_dict_is_not_the_dumped_one.
    reflexivity.
Qed.

End WriteDataAliasing.

Lemma write_data_snapshot_unaffected_by_mutation_witness :
  ∃ ev w',
    Aliasing.write_data ∅ 1%positive example_store_world = (inr (Aliasing.evt_data ev), w')
    ∧ Aliasing.sink w' = Aliasing.sink example_store_world ++ [ev]
    ∧ Aliasing.read_event (Aliasing.heap w') ev
      = mkEvent "t"
          (envelope (TaskMessageData.mk (Some "t") "u" (Some Running) None
                       (Aliasing.heap example_store_world !!! 1%positive)))
          ∅
    ∧ ∀ o, Aliasing.read_event (Aliasing.heap (Aliasing.mutate 1%positive o w')) ev
           = Aliasing.read_event (Aliasing.heap w') ev.
Proof.
  apply (write_data_snapshot_unaffected_by_mutation ∅ 1%positive example_store_world).
  - reflexivity.
  - vm_compute. eexists. reflexivity.
Defined.

(** * Properties of the message conversions *)

(** ** [convert_message_content_to_string] *)

Lemma string_append_cons a s t :
  String.append (String a s) t = String a (String.append s t).
Proof. reflexivity. Qed.

Lemma string_append_nil_r s : String.append s EmptyString = s.
Proof.
  induction s as [|a s IH]; [reflexivity|]. by rewrite string_append_cons, IH.
Qed.

Lemma string_append_assoc s1 s2 s3 :
  String.append (String.append s1 s2) s3 = String.append s1 (String.append s2 s3).
Proof.
  induction s1 as [|a s1 IH]; [reflexivity|]. by rewrite !string_append_cons, IH.
Qed.

Lemma join_app t1 t2 s1 s2 :
  join t1 = inr s1 → join t2 = inr s2 → join (t1 ++ t2) = inr (String.append s1 s2).
Proof.
  revert s1. induction t1 as [|v t1 IH]; intros s1 H1 H2; simpl in *.
  - by injection H1 as <-.
  - destruct v as [|b|z|s|l|m]; try discriminate H1.
    destruct (join t1) as [e|r1] eqn:Hj; simpl in H1; [discriminate H1|].
    injection H1 as <-.
    rewrite (IH r1 eq_refl H2); simpl. by rewrite string_append_assoc.
Qed.

Lemma join_app_inv t1 t2 s :
  join (t1 ++ t2) = inr s →
  ∃ s1 s2, join t1 = inr s1 ∧ join t2 = inr s2 ∧ s = String.append s1 s2.
Proof.
  revert s. induction t1 as [|v t1 IH]; intros s H; simpl in *.
  - exists EmptyString, s. by rewrite H.
  - destruct v as [|b|z|s0|l|m]; try discriminate H.
    destruct (join (t1 ++ t2)) as [e|r] eqn:Hj; simpl in H; [discriminate H|].
    injection H as <-.
    destruct (IH r eq_refl) as (s1 & s2 & -> & -> & ->); simpl.
    exists (String.append s0 s1), s2. by rewrite string_append_assoc.
Qed.

(** The list built so far is a prefix of the list the loop ends with. *)
Lemma collect_text_acc items : ∀ text,
  collect_text items text =
  and_then (collect_text items []) (λ t, inr (text ++ t)).
Proof.
  induction items as [|item items IH]; intros text; simpl.
  - by rewrite app_nil_r.
  - destruct item as [s|d].
    + rewrite (IH (text ++ [VStr s])), (IH [VStr s]).
      destruct (collect_text items []) as [e|t]; simpl; [done|].
      by rewrite <- app_assoc.
    + destruct (d !! "type") as [ty|]; [|done].
      destruct (is_text ty); [|apply IH].
      destruct (d !! "text") as [v|]; [|done].
      rewrite (IH (text ++ [v])), (IH [v]).
      destruct (collect_text items []) as [e|t]; simpl; [done|].
      by rewrite <- app_assoc.
Qed.

Lemma collect_text_app items1 items2 :
  collect_text (items1 ++ items2) [] =
  and_then (collect_text items1 []) (λ t1,
  and_then (collect_text items2 []) (λ t2, inr (t1 ++ t2))).
Proof.
  induction items1 as [|item items1 IH]; simpl.
  - by destruct (collect_text items2 []).
  - destruct item as [s|d].
    + rewrite (collect_text_acc (items1 ++ items2)), (collect_text_acc items1), IH.
      destruct (collect_text items1 []) as [e|t1]; simpl; [done|].
      destruct (collect_text items2 []) as [e|t2]; simpl; [done|].
      done.
    + destruct (d !! "type") as [ty|]; [|done].
      destruct (is_text ty); [|apply IH].
      destruct (d !! "text") as [v|]; [|done].
      rewrite (collect_text_acc (items1 ++ items2)), (collect_text_acc items1), IH.
      destruct (collect_text items1 []) as [e|t1]; simpl; [done|].
      destruct (collect_text items2 []) as [e|t2]; simpl; [done|].
      done.
Qed.

(** X1. On content in which every item is well formed, the result is the
    concatenation, in order, of the texts of the items. *)
Theorem convert_well_formed (items : list content_item) (texts : list string) :
  mapM item_text items = Some texts →
  convert_message_content_to_string (ContentList items)
  = inr (concat_strings texts).
Proof.
  unfold convert_message_content_to_string.
  revert texts. induction items as [|item items IH]; intros texts H.
  - injection H as <-. reflexivity.
  - rewrite mapM_cons in H || simpl in H.
    destruct (item_text item) as [s|] eqn:Hitem; simpl in H; [|discriminate H].
    destruct (mapM item_text items) as [rest|] eqn:Hrest; simpl in H; [|discriminate H].
    injection H as <-.
    specialize (IH rest eq_refl).
    destruct (collect_text items []) as [e|t] eqn:Ht; simpl in IH; [discriminate IH|].
    simpl. destruct item as [s0|d]; simpl in Hitem.
    + injection Hitem as ->.
      rewrite collect_text_acc, Ht; simpl. by rewrite IH.
    + destruct (d !! "type") as [ty|]; [|discriminate Hitem].
      destruct (is_text ty).
      * destruct (d !! "text") as [[|b|z|s1|l|m]|]; try discriminate Hitem.
        injection Hitem as ->.
        rewrite collect_text_acc, Ht; simpl. by rewrite IH.
      * injection Hitem as <-. by rewrite Ht.
Qed.

Lemma convert_well_formed_witness :
  convert_message_content_to_string
    (ContentList [ItemStr "a"; ItemDict {[ "type" := VStr "text"; "text" := VStr "b" ]};
                  ItemDict {[ "type" := VStr "image_url" ]}; ItemStr "c"])
  = inr (concat_strings ["a"; "b"; EmptyString; "c"]).
Proof.
  apply (convert_well_formed
           [ItemStr "a"; ItemDict {[ "type" := VStr "text"; "text" := VStr "b" ]};
            ItemDict {[ "type" := VStr "image_url" ]}; ItemStr "c"]
           ["a"; "b"; EmptyString; "c"]).
  vm_compute. reflexivity.
Defined.

(** X2. Conversion distributes over the concatenation of two contents that
    each convert. *)
Theorem convert_app (items1 items2 : list content_item) (s1 s2 : string) :
  convert_message_content_to_string (ContentList items1) = inr s1 →
  convert_message_content_to_string (ContentList items2) = inr s2 →
  convert_message_content_to_string (ContentList (items1 ++ items2))
  = inr (String.append s1 s2).
Proof.
  unfold convert_message_content_to_string. intros H1 H2.
  rewrite collect_text_app.
  destruct (collect_text items1 []) as [e|t1]; simpl in *; [discriminate H1|].
  destruct (collect_text items2 []) as [e|t2]; simpl in *; [discriminate H2|].
  by apply join_app.
Qed.

Lemma convert_app_witness :
  convert_message_content_to_string
    (ContentList ([ItemStr "2+2"] ++ [ItemDict {[ "type" := VStr "text"; "text" := VStr "=4" ]}]))
  = inr (String.append "2+2" "=4").
Proof.
  apply (convert_app [ItemStr "2+2"]
           [ItemDict {[ "type" := VStr "text"; "text" := VStr "=4" ]}] "2+2" "=4").
  - vm_compute. reflexivity.
  - vm_compute. reflexivity.
Defined.

(** X3. A dict item whose type is not text contributes nothing: leaving it
    out gives the same result, or the same exception. *)
Theorem convert_skips_other_types (items1 items2 : list content_item)
    (d : gmap string pyval) (ty : pyval) :
  d !! "type" = Some ty → is_text ty = false →
  convert_message_content_to_string (ContentList (items1 ++ ItemDict d :: items2))
  = convert_message_content_to_string (ContentList (items1 ++ items2)).
Proof.
  unfold convert_message_content_to_string. intros Hty Hne.
  rewrite !collect_text_app. simpl. by rewrite Hty, Hne.
Qed.

Lemma convert_skips_other_types_witness :
  convert_message_content_to_string
    (ContentList ([ItemStr "a"] ++ ItemDict {[ "type" := VStr "tool_use" ]} :: [ItemStr "b"]))
  = convert_message_content_to_string (ContentList ([ItemStr "a"] ++ [ItemStr "b"])).
Proof.
  apply (convert_skips_other_types [ItemStr "a"] [ItemStr "b"]
           {[ "type" := VStr "tool_use" ]} (VStr "tool_use")).
  - vm_compute. reflexivity.
  - vm_compute. reflexivity.
Defined.

(** X4. A dict item without the key type raises [KeyError] for that key,
    when the items before it are passed without an exception; what follows
    it is not looked at. *)
Theorem convert_missing_type (items1 items2 : list content_item)
    (d : gmap string pyval) (s1 : string) :
  convert_message_content_to_string (ContentList items1) = inr s1 →
  d !! "type" = None →
  convert_message_content_to_string (ContentList (items1 ++ ItemDict d :: items2))
  = inl (KeyError "type").
Proof.
  unfold convert_message_content_to_string. intros H1 Hty.
  rewrite collect_text_app.
  destruct (collect_text items1 []) as [e|t1]; simpl in *; [discriminate H1|].
  by rewrite Hty.
Qed.

Lemma convert_missing_type_witness :
  convert_message_content_to_string
    (ContentList ([ItemStr "a"] ++ ItemDict {[ "text" := VStr "b" ]} :: [ItemStr "c"]))
  = inl (KeyError "type").
Proof.
  apply (convert_missing_type [ItemStr "a"] [ItemStr "c"] {[ "text" := VStr "b" ]} "a").
  - vm_compute. reflexivity.
  - vm_compute. reflexivity.
Defined.




(** ** [ChatMessage.from_langchain] and [ChatMessage.to_langchain] *)

Section ConversionProperties.
Context (message_to_dict : BaseMessage → gmap string pyval).
Context (messages_from_dict : list (gmap string pyval) → pyerror + list BaseMessage).


End ConversionProperties.

(** * Further properties of [Task] *)

(** What one call does: [write_data] on a task that is not running raises
    and changes nothing; any other call returns the envelope of one
    snapshot of the state it leaves, after dispatching it. *)
Lemma perform_cases c w :
  (Task.perform c w = (inl InvalidTransition, w)
   ∧ is_start c = false ∧ Task.state (Task.self w) ≠ Running)
  ∨ (∃ m config,
       Task.perform c w =
         (inr (envelope m),
          {| Task.self := Task.self (snd (Task.perform c w));
             Task.sink := Task.sink w
                            ++ [mkEvent (Task.name (Task.self w)) (envelope m) config] |})
       ∧ task_event (Task.name (Task.self w)) (Task.id (Task.self w))
           (mkEvent (Task.name (Task.self w)) (envelope m) config)
       ∧ TaskMessageData.state m = Some (Task.state (Task.self (snd (Task.perform c w))))).
Proof.
  destruct c as [config data|config data|r config data]; simpl.
  - right. rewrite start_eq; simpl. eexists _, config. split; [reflexivity|].
    split; [|reflexivity]. eexists. split_and!; try reflexivity. by left.
  - destruct (decide (Task.state (Task.self w) = Running)) as [Hrun|Hrun].
    + right. rewrite write_data_running_eq by done; simpl.
      eexists _, config. split; [by destruct w|].
      split; [|by rewrite Hrun]. eexists. split_and!; try reflexivity. by left.
    + left. by rewrite write_data_not_running_eq.
  - right. rewrite finish_eq; simpl. eexists _, config. split; [reflexivity|].
    split; [|reflexivity]. eexists. split_and!; try reflexivity. right. eauto.
Qed.

Lemma run_events cs : ∀ w,
  ∃ evs, Task.sink (Task.run cs w) = Task.sink w ++ evs
         ∧ (length evs ≤ length cs)%nat
         ∧ Forall (task_event (Task.name (Task.self w)) (Task.id (Task.self w))) evs.
Proof.
  induction cs as [|c cs IH]; intros w; simpl.
  - exists []. by rewrite app_nil_r.
  - destruct (IH (snd (Task.perform c w))) as (evs & Hsink & Hlen & Hevs).
    destruct (perform_name_id c w) as [Hn Hi]. rewrite Hn, Hi in Hevs.
    rewrite Hsink.
    destruct (perform_cases c w) as [(Hp & _ & _)|(m & config & Hp & Hev & _)];
      rewrite Hp; simpl.
    + exists evs. split_and!; [done|lia|done].
    + eexists (_ :: evs). rewrite <- app_assoc. split_and!; [done|simpl; lia|].
      by constructor.
Qed.

(** X6. The channel only grows: after any calls, the events that were there
    are still there in the same order, followed by at most one new event per
    call. *)
Theorem sink_append_only (cs : list Task.call) (w : Task.World) :
  ∃ evs, Task.sink (Task.run cs w) = Task.sink w ++ evs ∧ (length evs ≤ length cs)%nat.
Proof. destruct (run_events cs w) as (evs & ? & ? & _). eauto. Qed.

(** X7. Every event a task dispatches holds, under the task's name and in
    an envelope of role custom with one element, a snapshot with the task's
    name and id whose state is running or complete, never new, and which
    has a result exactly when it is complete. *)
Theorem every_event_is_a_snapshot (task_name uuid : string) (cs : list Task.call) :
  Forall
    (λ ev, ∃ m,
       ev_name ev = task_name
       ∧ role (ev_data ev) = "custom"
       ∧ content (ev_data ev) = [TaskMessageData.model_dump m]
       ∧ observe ev = Some m
       ∧ TaskMessageData.name m = Some task_name
       ∧ TaskMessageData.run_id m = uuid
       ∧ (TaskMessageData.state m = Some Running ∨ TaskMessageData.state m = Some Complete)
       ∧ (is_Some (TaskMessageData.result m) ↔ TaskMessageData.state m = Some Complete))
    (Task.sink (Task.run cs (Task.fresh task_name uuid))).
Proof.
  destruct (run_events cs (Task.fresh task_name uuid)) as (evs & -> & _ & Hevs).
  simpl in *. eapply Forall_impl; [exact Hevs|].
  intros [n msg config] (m & Hn & Hmsg & Hname & Hid & Hst); simpl in *; subst.
  exists m. split_and!; [done | done | done | apply observe_envelope | done | done | |].
  - destruct Hst as [[-> _]|[-> _]]; auto.
  - destruct Hst as [[-> ->]|[-> Hr]]; (split; [|done]); [by intros [? ?]|done].
Qed.

(** X8. When a caller that awaits each call gets through the whole
    sequence, the world is the one of [run], one envelope is returned per
    call, and the envelopes returned are, in order, the envelopes newly in
    the channel. *)
Theorem perform_all_returns_dispatched (cs : list Task.call) (w w' : Task.World)
    (msgs : list LangchainChatMessage) :
  perform_all cs w = (inr msgs, w') →
  w' = Task.run cs w
  ∧ length msgs = length cs
  ∧ ev_data <$> Task.sink w' = (ev_data <$> Task.sink w) ++ msgs.
Proof.
  revert w msgs. induction cs as [|c cs IH]; intros w msgs H; simpl in *.
  - injection H as <- <-. by rewrite app_nil_r.
  - unfold mbind, Eff_bind in H.
    destruct (perform_cases c w) as [(Hp & _ & _)|(m & config & Hp & _ & _)];
      rewrite Hp in H; [discriminate H|].
    rewrite Hp; simpl.
    match type of H with
    | context [perform_all cs ?w1] =>
        destruct (perform_all cs w1) as [[e|msgs'] w2] eqn:Hall
    end; [discriminate H|].
    injection H as <- <-.
    destruct (IH _ _ Hall) as (-> & Hlen & Hsink).
    split_and!; [done|simpl; by rewrite Hlen|].
    rewrite Hsink; simpl. rewrite fmap_app; simpl. by rewrite <- app_assoc.
Qed.

Lemma perform_all_returns_dispatched_witness :
  snd (perform_all [Task.Start ∅ ∅; Task.Finish Error ∅ ∅] (Task.fresh "t" "u"))
    = Task.run [Task.Start ∅ ∅; Task.Finish Error ∅ ∅] (Task.fresh "t" "u")
  ∧ length [envelope (TaskMessageData.mk (Some "t") "u" (Some Running) None ∅);
            envelope (TaskMessageData.mk (Some "t") "u" (Some Complete) (Some Error) ∅)]
    = length [Task.Start ∅ ∅; Task.Finish Error ∅ ∅]
  ∧ ev_data <$> Task.sink
      (snd (perform_all [Task.Start ∅ ∅; Task.Finish Error ∅ ∅] (Task.fresh "t" "u")))
    = (ev_data <$> Task.sink (Task.fresh "t" "u"))
      ++ [envelope (TaskMessageData.mk (Some "t") "u" (Some Running) None ∅);
          envelope (TaskMessageData.mk (Some "t") "u" (Some Complete) (Some Error) ∅)].
Proof.
  apply (perform_all_returns_dispatched
           [Task.Start ∅ ∅; Task.Finish Error ∅ ∅] (Task.fresh "t" "u")).
  vm_compute. reflexivity.
Defined.

(** The states read in the channel after one more event. *)
Lemma observed_state_snoc evs n m config :
  observed_state <$> (evs ++ [mkEvent n (envelope m) config])
  = (observed_state <$> evs) ++ [Some (TaskMessageData.state m)].
Proof.
  rewrite fmap_app; simpl. unfold observed_state at 2. by rewrite observe_envelope.
Qed.

Lemma run_completed_timeline cs : ∀ w,
  Task.state (Task.self w) = Complete →
  forallb (negb ∘ is_start) cs = true →
  ∃ b, observed_state <$> Task.sink (Task.run cs w)
       = (observed_state <$> Task.sink w) ++ replicate b (Some (Some Complete))
       .
Proof.
  induction cs as [|c cs IH]; intros w Hst Hcs; simpl in *.
  - exists 0. by rewrite app_nil_r.
  - apply andb_prop in Hcs as [Hc Hcs].
    destruct (perform_cases c w) as [(Hp & _ & _)|(m & config & Hp & _ & Hm)].
    + rewrite Hp; simpl. by apply IH.
    + assert (Hst' : Task.state (Task.self (snd (Task.perform c w))) = Complete).
      { rewrite perform_self. destruct c; simpl in *; done. }
      destruct (IH _ Hst' Hcs) as (b & Hb).
      exists (S b). rewrite Hb. rewrite Hp; simpl.
      rewrite observed_state_snoc, Hm, Hst'. by rewrite <- app_assoc.
Qed.

Lemma no_start_no_restart cs :
  forallb (negb ∘ is_start) cs = true → no_start_after_finish cs = true.
Proof.
  induction cs as [|c cs IH]; simpl; [done|].
  intros [Hc Hcs]%andb_prop. destruct c; simpl in *; auto.
Qed.

Lemma run_timeline cs : ∀ w,
  no_start_after_finish cs = true →
  ∃ a b, observed_state <$> Task.sink (Task.run cs w)
         = (observed_state <$> Task.sink w)
           ++ replicate a (Some (Some Running)) ++ replicate b (Some (Some Complete)).
Proof.
  induction cs as [|c cs IH]; intros w Hcs; simpl in *.
  - exists 0, 0. by rewrite app_nil_r.
  - destruct (perform_cases c w) as [(Hp & Hc & _)|(m & config & Hp & _ & Hm)].
    + rewrite Hp; simpl. apply IH.
      destruct c; simpl in *; [discriminate Hc|done|by apply no_start_no_restart].
    + pose proof (perform_self c w) as Hself.
      destruct c as [cfg data|cfg data|r cfg data].
      * destruct (IH (snd (Task.perform (Task.Start cfg data) w)) Hcs) as (a & b & Hab).
        exists (S a), b. rewrite Hab, Hp; simpl.
        rewrite observed_state_snoc, Hm, Hself; simpl. by rewrite <- app_assoc.
      * destruct (IH (snd (Task.perform (Task.WriteData cfg data) w)) Hcs) as (a & b & Hab).
        assert (Hrun : Task.state (Task.self w) = Running).
        { destruct (decide (Task.state (Task.self w) = Running)) as [|Hne]; [done|].
          simpl in Hp. rewrite write_data_not_running_eq in Hp by done.
          discriminate Hp. }
        exists (S a), b. rewrite Hab, Hp; simpl.
        rewrite observed_state_snoc, Hm, Hself, Hrun; simpl. by rewrite <- app_assoc.
      * assert (Hst' : Task.state (Task.self (snd (Task.perform (Task.Finish r cfg data) w)))
                       = Complete) by by rewrite Hself.
        destruct (run_completed_timeline cs _ Hst' Hcs) as (b & Hb).
        exists 0, (S b). rewrite Hb, Hp; simpl.
        rewrite observed_state_snoc, Hm, Hself; simpl. by rewrite <- app_assoc.
Qed.

(** X9. When [start] is not called after [finish], an observer of a new
    task reads a timeline of running snapshots followed by complete ones:
    no running snapshot comes after a complete one. *)
Theorem timeline_running_then_complete (task_name uuid : string)
    (cs : list Task.call) :
  no_start_after_finish cs = true →
  ∃ a b, observed_state <$> Task.sink (Task.run cs (Task.fresh task_name uuid))
         = replicate a (Some (Some Running)) ++ replicate b (Some (Some Complete)).
Proof. intros Hcs. by apply (run_timeline cs (Task.fresh task_name uuid)). Qed.

Lemma timeline_running_then_complete_witness :
  ∃ a b, observed_state <$> Task.sink
           (Task.run [Task.WriteData ∅ ∅; Task.Start ∅ ∅; Task.WriteData ∅ ∅;
                      Task.Finish Success ∅ ∅; Task.WriteData ∅ ∅;
                      Task.Finish Error ∅ ∅] (Task.fresh "t" "u"))
         = replicate a (Some (Some Running)) ++ replicate b (Some (Some Complete)).
Proof.
  apply (timeline_running_then_complete "t" "u"
           [Task.WriteData ∅ ∅; Task.Start ∅ ∅; Task.WriteData ∅ ∅;
            Task.Finish Success ∅ ∅; Task.WriteData ∅ ∅; Task.Finish Error ∅ ∅]).
  reflexivity.
Defined.

(** X10. [finish] is not guarded: a second [finish] dispatches a second
    terminal snapshot, and the result the task keeps is that of the last
    call. *)
Theorem finish_twice (r1 r2 : TaskResult) (c1 c2 d1 d2 : gmap string pyval)
    (w : Task.World) :
  ∃ ev1 ev2,
    Task.sink (Task.run [Task.Finish r1 c1 d1; Task.Finish r2 c2 d2] w)
      = Task.sink w ++ [ev1; ev2]
    ∧ observe ev1
      = Some (TaskMessageData.mk (Some (Task.name (Task.self w))) (Task.id (Task.self w))
                (Some Complete) (Some r1) d1)
    ∧ observe ev2
      = Some (TaskMessageData.mk (Some (Task.name (Task.self w))) (Task.id (Task.self w))
                (Some Complete) (Some r2) d2)
    ∧ Task.self (Task.run [Task.Finish r1 c1 d1; Task.Finish r2 c2 d2] w)
      = Task.mk (Task.name (Task.self w)) (Task.id (Task.self w)) Complete (Some r2).
Proof.
  simpl. rewrite (finish_eq c1 d1 w r1); simpl.
  rewrite finish_mk; simpl.
  eexists _, _. rewrite <- app_assoc; simpl.
  split_and!; [reflexivity | apply observe_envelope | apply observe_envelope | reflexivity].
Qed.



(** ** The dumped payload *)

(** A dumped [TaskMessageData] has exactly the five keys of its
    fields, also for the fields that are [None]. *)
Lemma model_dump_keys (m : TaskMessageData.t) :
  dom (TaskMessageData.model_dump m)
  = ({[ "name"; "run_id"; "state"; "result"; "data" ]} : gset string).
Proof.
  unfold TaskMessageData.model_dump.
  rewrite !dom_insert_L, dom_empty_L.
  apply set_eq. intros k. rewrite !elem_of_union, !elem_of_singleton, elem_of_empty.
  tauto.
Qed.

(** X11. Two snapshots with the same dump are the same snapshot. *)
Theorem model_dump_inj (m1 m2 : TaskMessageData.t) :
  TaskMessageData.model_dump m1 = TaskMessageData.model_dump m2 → m1 = m2.
Proof.
  intros H.
  assert (Hv : @inr exn _ m1 = inr m2); [|by injection Hv].
  by rewrite <- (init_model_dump m1), <- (init_model_dump m2), H.
Qed.

Lemma model_dump_inj_witness :
  TaskMessageData.mk (Some "t") "u" (Some Running) None ∅
  = TaskMessageData.mk (Some "t") "u" (Some Running) None ∅.
Proof.
  apply (model_dump_inj (TaskMessageData.mk (Some "t") "u" (Some Running) None ∅)
           (TaskMessageData.mk (Some "t") "u" (Some Running) None ∅)).
  reflexivity.
Defined.

(** * Further properties of the message conversions *)

Section ConversionRoundTrips.
Context (message_to_dict : BaseMessage → gmap string pyval).
Context (messages_from_dict : list (gmap string pyval) → pyerror + list BaseMessage).

(** X12. The tool calls of an AI message are the tool calls of the
    [ChatMessage] made from it, whether there are any or not; its content
    is the converted content and its original the serialized message. *)
Theorem from_langchain_ai_tool_calls (c : message_content)
    (tcs : list (gmap string pyval)) (cm : ChatMessage.t) :
  ChatMessage.from_langchain message_to_dict (AIMessage c tcs) = inr cm →
  ChatMessage.type cm = AI
  ∧ ChatMessage.tool_calls cm = tcs
  ∧ convert_message_content_to_string c = inr (ChatMessage.content cm)
  ∧ ChatMessage.original cm = message_to_dict (AIMessage c tcs).
Proof.
  simpl. destruct (convert_message_content_to_string c) as [e|s]; simpl; [discriminate|].
  case_bool_decide as Htcs; intros [= <-]; simpl; [done|].
  assert (tcs = []) as -> by (destruct tcs; [done|by destruct Htcs]).
  done.
Qed.

(** The envelope of a snapshot, converted by [from_langchain], is a
    custom [ChatMessage] with empty content and no original whose
    [custom_data] is the dumped snapshot, which validates to the snapshot. *)
Lemma from_langchain_envelope (m : TaskMessageData.t) :
  ∃ cm,
    ChatMessage.from_langchain message_to_dict (as_message (envelope m)) = inr cm
    ∧ ChatMessage.type cm = Custom
    ∧ ChatMessage.content cm = EmptyString
    ∧ ChatMessage.original cm = ∅
    ∧ ChatMessage.custom_data cm = TaskMessageData.model_dump m
    ∧ TaskMessageData.model_validate (ChatMessage.custom_data cm) = inr m.
Proof.
  eexists. split; [reflexivity|]. simpl.
  split_and!; try reflexivity. apply init_model_dump.
Qed.

(** X13. Every event that a task dispatches is converted by
    [from_langchain] to a custom [ChatMessage] whose [custom_data] validates
    to a snapshot with the name and the id of the task. *)
Theorem task_events_convert (task_name uuid : string) (cs : list Task.call) :
  Forall
    (λ ev, ∃ cm m,
       ChatMessage.from_langchain message_to_dict (as_message (ev_data ev)) = inr cm
       ∧ ChatMessage.type cm = Custom
       ∧ TaskMessageData.model_validate (ChatMessage.custom_data cm) = inr m
       ∧ TaskMessageData.run_id m = uuid
       ∧ TaskMessageData.name m = Some task_name)
    (Task.sink (Task.run cs (Task.fresh task_name uuid))).
Proof.
  destruct (run_events cs (Task.fresh task_name uuid)) as (evs & -> & _ & Hevs).
  simpl in *. eapply Forall_impl; [exact Hevs|].
  intros [n msg config] (m & Hn & Hmsg & Hname & Hid & _); simpl in *; subst.
  eexists _, m. split; [reflexivity|]. simpl.
  split_and!; try done. apply init_model_dump.
Qed.

(** X14. A custom [ChatMessage] made by [from_langchain] cannot be
    converted back: [to_langchain] raises [NotImplementedError]. *)
Theorem custom_message_not_convertible (c : message_content) (r : string)
    (cm : ChatMessage.t) :
  ChatMessage.from_langchain message_to_dict (LcChatMessage c r) = inr cm →
  ChatMessage.to_langchain messages_from_dict cm
  = inl (NotImplementedError "Unsupported message type: custom").
Proof.
  simpl. destruct (String.eqb r "custom"); [|discriminate].
  destruct (content_first c) as [e|v]; simpl; [discriminate|].
  destruct (validate_dict v); [|discriminate].
  intros [= <-]. unfold ChatMessage.to_langchain; simpl.
  by rewrite bool_decide_eq_false_2 by (intros H; by apply H).
Qed.


(** X16. With an original that [messages_from_dict] reads back as the
    message, a human, AI or tool message comes back from
    [from_langchain] then [to_langchain] with its content replaced by the
    converted string. *)
Theorem to_langchain_from_langchain (message : BaseMessage) (cm : ChatMessage.t) :
  ChatMessage.from_langchain message_to_dict message = inr cm →
  message_to_dict message ≠ ∅ →
  messages_from_dict [message_to_dict message] = inr [message] →
  (∀ c r, message ≠ LcChatMessage c r) →
  ChatMessage.to_langchain messages_from_dict cm
  = inr (set_content message (ContentStr (ChatMessage.content cm))).
Proof.
  intros Hfrom Hne Hback Hchat.
  assert (Horig : ChatMessage.original cm = message_to_dict message).
  { destruct message as [c|c tcs|c tid|c r|cls c]; simpl in Hfrom.
    - destruct (convert_message_content_to_string c); simpl in Hfrom;
        [discriminate Hfrom|by injection Hfrom as <-].
    - destruct (convert_message_content_to_string c); simpl in Hfrom;
        [discriminate Hfrom|].
      by case_bool_decide; injection Hfrom as <-.
    - destruct (convert_message_content_to_string c); simpl in Hfrom;
        [discriminate Hfrom|by injection Hfrom as <-].
    - by destruct (Hchat c r).
    - discriminate Hfrom. }
  unfold ChatMessage.to_langchain. rewrite Horig.
  rewrite bool_decide_eq_true_2 by done. by rewrite Hback.
Qed.

End ConversionRoundTrips.

Lemma from_langchain_ai_tool_calls_witness :
  ChatMessage.type
    (ChatMessage.mk AI "4" [{[ "name" := VStr "Calculator" ]}] None None
       {[ "type" := VStr "ai" ]} ∅) = AI
  ∧ ChatMessage.tool_calls
      (ChatMessage.mk AI "4" [{[ "name" := VStr "Calculator" ]}] None None
         {[ "type" := VStr "ai" ]} ∅) = [{[ "name" := VStr "Calculator" ]}]
  ∧ convert_message_content_to_string (ContentStr "4")
    = inr (ChatMessage.content
             (ChatMessage.mk AI "4" [{[ "name" := VStr "Calculator" ]}] None None
                {[ "type" := VStr "ai" ]} ∅))
  ∧ ChatMessage.original
      (ChatMessage.mk AI "4" [{[ "name" := VStr "Calculator" ]}] None None
         {[ "type" := VStr "ai" ]} ∅) = {[ "type" := VStr "ai" ]}.
Proof.
  apply (from_langchain_ai_tool_calls (λ _, {[ "type" := VStr "ai" ]})
           (ContentStr "4") [{[ "name" := VStr "Calculator" ]}]).
  reflexivity.
Defined.

Lemma custom_message_not_convertible_witness :
  ChatMessage.to_langchain (λ _, inr [])
    (ChatMessage.mk Custom EmptyString [] None None ∅ {[ "state" := VStr "running" ]})
  = inl (NotImplementedError "Unsupported message type: custom").
Proof.
  apply (custom_message_not_convertible (λ _, ∅) (λ _, inr [])
           (ContentList [ItemDict {[ "state" := VStr "running" ]}]) "custom").
  reflexivity.
Defined.


Lemma to_langchain_from_langchain_witness :
  ChatMessage.to_langchain
    (λ _, inr [ToolMessage (ContentList [ItemStr "4"; ItemStr "2"]) "call_1"])
    (ChatMessage.mk Tool "42" [] (Some "call_1") None {[ "type" := VStr "tool" ]} ∅)
  = inr (set_content (ToolMessage (ContentList [ItemStr "4"; ItemStr "2"]) "call_1")
           (ContentStr (ChatMessage.content
              (ChatMessage.mk Tool "42" [] (Some "call_1") None
                 {[ "type" := VStr "tool" ]} ∅)))).
Proof.
  apply (to_langchain_from_langchain (λ _, {[ "type" := VStr "tool" ]})
           (λ _, inr [ToolMessage (ContentList [ItemStr "4"; ItemStr "2"]) "call_1"])
           (ToolMessage (ContentList [ItemStr "4"; ItemStr "2"]) "call_1")).
  - vm_compute. reflexivity.
  - apply (bool_decide_unpack _). vm_compute. exact I.
  - reflexivity.
  - intros c r. discriminate.
Defined.

Example re_sub_array : re_sub_brackets "[1 2 3]" = "1 2 3".
Proof. vm_compute. reflexivity. Qed.

Example re_sub_scalar : re_sub_brackets "42" = "42".
Proof. vm_compute. reflexivity. Qed.

Example re_sub_nested : re_sub_brackets "[[1 2]]" = "[1 2]".
Proof. vm_compute. reflexivity. Qed.

Example calculator_success :
  calculator_func (λ _, inr "[4]") (λ _, "e") "u" "2+2" ∅ []
  = (inr "4",
     [mkEvent "Simple task 1..."
        (envelope (TaskMessageData.mk (Some "Simple task 1...") "u" (Some Running) None ∅)) ∅;
      mkEvent "Simple task 1..."
        (envelope (TaskMessageData.mk (Some "Simple task 1...") "u" (Some Complete)
                     (Some Success) {[ "output" := VStr "[4]" ]})) ∅]).
Proof. vm_compute. reflexivity. Qed.

(** * Properties of the calculator tool *)

(** ** The brackets of the output *)

Lemma sub_closing_bracket_snoc s :
  sub_closing_bracket (String.append s "]") = s.
Proof.
  induction s as [|c s IH]; [reflexivity|].
  rewrite string_append_cons. simpl.
  assert (Hno : closing_bracket_at_end c (String.append s "]") = false).
  { unfold closing_bracket_at_end.
    destruct s as [|a [|b s]]; simpl; rewrite ?andb_false_r; reflexivity. }
  by rewrite Hno, IH.
Qed.

(** X17. The output of an array, in brackets, is returned without them. *)
Theorem re_sub_brackets_enclosed (s : string) :
  re_sub_brackets (String.append "[" (String.append s "]")) = s.
Proof. simpl. apply sub_closing_bracket_snoc. Qed.

(** X18. An output that does not begin with an opening bracket and does not
    end with a closing bracket, or with one before a final newline, is
    returned as it is. *)
Theorem re_sub_brackets_unchanged (s : string) :
  (∀ rest, s ≠ String "[" rest) →
  (∀ p, s ≠ String.append p "]") →
  (∀ p, s ≠ String.append p (String "]" (String "010" EmptyString))) →
  re_sub_brackets s = s.
Proof.
  intros Hopen Hclose Hclose_nl.
  assert (Hsub : sub_closing_bracket s = s).
  { clear Hopen. induction s as [|c s IH]; [reflexivity|]. simpl.
    assert (Hno : closing_bracket_at_end c s = false).
    { unfold closing_bracket_at_end.
      destruct (Ascii.eqb_spec c "]") as [->|Hc]; [|reflexivity]. simpl.
      destruct s as [|n [|b s]]; [| |reflexivity].
      - by destruct (Hclose EmptyString).
      - destruct (Ascii.eqb_spec n "010") as [->|Hn]; [|reflexivity].
        by destruct (Hclose_nl EmptyString). }
    rewrite Hno, IH; [reflexivity| |].
    - intros p ->. by apply (Hclose (String c p)).
    - intros p ->. by apply (Hclose_nl (String c p)). }
  destruct s as [|c s]; [reflexivity|]. simpl.
  destruct (Ascii.eqb_spec c "[") as [->|Hc]; [by destruct (Hopen s)|].
  exact Hsub.
Qed.

Lemma re_sub_brackets_unchanged_witness : re_sub_brackets "42" = "42".
Proof.
  apply (re_sub_brackets_unchanged "42").
  - intros rest. discriminate.
  - intros [|a [|b [|c p]]] H; cbv in H; discriminate H.
  - intros [|a [|b [|c p]]] H; cbv in H; discriminate H.
Defined.

(** ** [calculator_func] *)

Section CalculatorProperties.
Context (evaluate : string → string + string).
Context (str_exn : exn → string).
Context (uuid expression : string) (config : gmap string pyval).
Context (events : list CustomEvent).

Let started : TaskMessageData.t :=
  TaskMessageData.mk (Some "Simple task 1...") uuid (Some Running) None ∅.

Let finished (r : TaskResult) (output : string) : TaskMessageData.t :=
  TaskMessageData.mk (Some "Simple task 1...") uuid (Some Complete) (Some r)
    {[ "output" := VStr output ]}.

Lemma calculator_returns_eq output :
  evaluate expression = inr output →
  calculator_func evaluate str_exn uuid expression config events
  = (inr (re_sub_brackets output),
     events ++ [mkEvent "Simple task 1..." (envelope started) config;
                mkEvent "Simple task 1..." (envelope (finished Success output)) config]).
Proof.
  intros Hev.
  unfold calculator_func, calculator_on_task, try_except, under_try, mbind, Eff_bind,
    Task.init.
  rewrite start_mk; cbn beta iota zeta. rewrite Hev.
  rewrite finish_mk; cbn beta iota zeta. simpl.
  by rewrite <- app_assoc.
Qed.

Lemma calculator_raises_eq str_e :
  evaluate expression = inl str_e →
  calculator_func evaluate str_exn uuid expression config events
  = (inl (ValueError (calculator_error_message expression str_e)),
     events ++ [mkEvent "Simple task 1..." (envelope started) config;
                mkEvent "Simple task 1..." (envelope (finished Error "error")) config]).
Proof.
  intros Hev.
  unfold calculator_func, calculator_on_task, try_except, under_try, mbind, Eff_bind,
    Task.init.
  rewrite start_mk; cbn beta iota zeta. rewrite Hev.
  rewrite finish_mk; cbn beta iota zeta. simpl.
  by rewrite <- app_assoc.
Qed.

(** X19. When the expression evaluates, [calculator_func] returns the
    output without its enclosing brackets, after dispatching a running
    snapshot without data and a complete snapshot with the result success
    and the output, as evaluated, as data. *)
Theorem calculator_returns (output : string) :
  evaluate expression = inr output →
  ∃ ev1 ev2,
    calculator_func evaluate str_exn uuid expression config events
    = (inr (re_sub_brackets output), events ++ [ev1; ev2])
    ∧ observe ev1
      = Some (TaskMessageData.mk (Some "Simple task 1...") uuid (Some Running) None ∅)
    ∧ observe ev2
      = Some (TaskMessageData.mk (Some "Simple task 1...") uuid (Some Complete)
                (Some Success) {[ "output" := VStr output ]}).
Proof.
  intros Hev. rewrite (calculator_returns_eq _ Hev).
  eexists _, _. split; [reflexivity|]. split; apply observe_envelope.
Qed.

(** X20. When the evaluation raises, [calculator_func] raises a
    [ValueError] that names the expression and the exception, after
    dispatching a running snapshot and a complete snapshot with the result
    error and the output error as data. *)
Theorem calculator_raises (str_e : string) :
  evaluate expression = inl str_e →
  ∃ ev1 ev2,
    calculator_func evaluate str_exn uuid expression config events
    = (inl (ValueError (calculator_error_message expression str_e)),
       events ++ [ev1; ev2])
    ∧ observe ev1
      = Some (TaskMessageData.mk (Some "Simple task 1...") uuid (Some Running) None ∅)
    ∧ observe ev2
      = Some (TaskMessageData.mk (Some "Simple task 1...") uuid (Some Complete)
                (Some Error) {[ "output" := VStr "error" ]}).
Proof.
  intros Hev. rewrite (calculator_raises_eq _ Hev).
  eexists _, _. split; [reflexivity|]. split; apply observe_envelope.
Qed.

(** X21. Whatever the evaluation does, [calculator_func] dispatches exactly
    two events, a running snapshot then a complete one of the same task,
    and the result of the complete one is success exactly when the call
    returns. *)
Theorem calculator_two_snapshots :
  ∃ ev1 ev2 m1 m2,
    snd (calculator_func evaluate str_exn uuid expression config events)
    = events ++ [ev1; ev2]
    ∧ observe ev1 = Some m1 ∧ observe ev2 = Some m2
    ∧ TaskMessageData.run_id m1 = uuid ∧ TaskMessageData.run_id m2 = uuid
    ∧ TaskMessageData.state m1 = Some Running
    ∧ TaskMessageData.state m2 = Some Complete
    ∧ (TaskMessageData.result m2 = Some Success
       ↔ ∃ s, fst (calculator_func evaluate str_exn uuid expression config events) = inr s).
Proof.
  destruct (evaluate expression) as [str_e|output] eqn:Hev.
  - rewrite (calculator_raises_eq _ Hev); simpl.
    eexists _, _, _, _. split; [reflexivity|].
    split; [apply observe_envelope|]. split; [apply observe_envelope|].
    simpl. split_and!; try reflexivity.
    split; [discriminate|]. by intros [s ?].
  - rewrite (calculator_returns_eq _ Hev); simpl.
    eexists _, _, _, _. split; [reflexivity|].
    split; [apply observe_envelope|]. split; [apply observe_envelope|].
    simpl. split_and!; try reflexivity.
    split; [eauto|done].
Qed.

End CalculatorProperties.

Lemma calculator_returns_witness :
  ∃ ev1 ev2,
    calculator_func (λ _, inr "[4]") (λ _, "e") "u" "2+2" ∅ []
    = (inr (re_sub_brackets "[4]"), [] ++ [ev1; ev2])
    ∧ observe ev1
      = Some (TaskMessageData.mk (Some "Simple task 1...") "u" (Some Running) None ∅)
    ∧ observe ev2
      = Some (TaskMessageData.mk (Some "Simple task 1...") "u" (Some Complete)
                (Some Success) {[ "output" := VStr "[4]" ]}).
Proof.
  apply (calculator_returns (λ _, inr "[4]") (λ _, "e") "u" "2+2" ∅ [] "[4]").
  reflexivity.
Defined.

Lemma calculator_raises_witness :
  ∃ ev1 ev2,
    calculator_func (λ _, inl "division by zero") (λ _, "e") "u" "1/0" ∅ []
    = (inl (ValueError (calculator_error_message "1/0" "division by zero")),
       [] ++ [ev1; ev2])
    ∧ observe ev1
      = Some (TaskMessageData.mk (Some "Simple task 1...") "u" (Some Running) None ∅)
    ∧ observe ev2
      = Some (TaskMessageData.mk (Some "Simple task 1...") "u" (Some Complete)
                (Some Error) {[ "output" := VStr "error" ]}).
Proof.
  apply (calculator_raises (λ _, inl "division by zero") (λ _, "e") "u" "1/0" ∅ []
           "division by zero").
  reflexivity.
Defined.
